(** * The MCP protocol client of simple-mcp-proxy (src/mcpClient.js)

    A shallow embedding of the [MCPClient] class: the request builder, the
    session handshake, the SSE aggregation loop and the error paths, over a
    model of the platform pieces the class calls (the streaming UTF-8
    [TextDecoder], [JSON.parse], [fetch] and [Response], the console).
    Further down come the configuration resolver of config.js and what
    the router does around the client: the session id it hands over and
    the replies of its [catch] blocks.

    JavaScript strings are sequences of UTF-16 code units, [list N] here;
    a [Uint8Array] chunk is a [list Byte.byte]. *)

From Stdlib Require Import ZArith NArith List Ascii Bool Lia Sorted.
From Stdlib.Strings Require Byte.
From stdpp Require Import base option list strings gmap sorting.

Local Open Scope N_scope.

(** ** JavaScript strings *)

Abbreviation jsstring := (list N).

Definition ch (a : ascii) : N := N_of_ascii a.

(** An ASCII literal as a JavaScript string. *)
Definition js (s : string) : jsstring := ch <$> String.list_ascii_of_string s.

Definition LF : N := 10.

Definition jsstring_eqb (a b : jsstring) : bool := bool_decide (a = b).

(** [String.prototype.startsWith]. *)
Fixpoint startsWith (s prefix : jsstring) : bool :=
  match prefix, s with
  | [], _ => true
  | p :: prefix', c :: s' => (c =? p) && startsWith s' prefix'
  | _ :: _, [] => false
  end.

(** [String.prototype.includes]: a substring test. *)
Fixpoint includes (s sub : jsstring) : bool :=
  startsWith s sub ||
  match s with
  | [] => false
  | _ :: s' => includes s' sub
  end.

(** [s.slice(n)] and [s.substring(0, n)] for a non-negative literal [n]. *)
Definition slice_from (n : nat) (s : jsstring) : jsstring := drop n s.
Definition substring0 (n : nat) (s : jsstring) : jsstring := take n s.

(** ECMAScript WhiteSpace and LineTerminator code points, the set that
    [String.prototype.trim] strips. *)
Definition is_js_space (c : N) : bool :=
  (c =? 0x09) || (c =? 0x0A) || (c =? 0x0B) || (c =? 0x0C) || (c =? 0x0D) ||
  (c =? 0x20) || (c =? 0xA0) || (c =? 0x1680) ||
  ((0x2000 <=? c) && (c <=? 0x200A)) ||
  (c =? 0x2028) || (c =? 0x2029) || (c =? 0x202F) || (c =? 0x205F) ||
  (c =? 0x3000) || (c =? 0xFEFF).

Fixpoint trimStart (s : jsstring) : jsstring :=
  match s with
  | c :: s' => if is_js_space c then trimStart s' else s
  | [] => []
  end.

Definition trimEnd (s : jsstring) : jsstring := rev (trimStart (rev s)).

Definition trim (s : jsstring) : jsstring := trimEnd (trimStart s).

(** [s.split('\n')]: the pieces between line feeds; never empty.  The
    result is returned as the first piece and the list of the others. *)
Fixpoint split_LF (s : jsstring) : jsstring * list jsstring :=
  match s with
  | [] => ([], [])
  | c :: s' =>
      let '(piece, pieces) := split_LF s' in
      if c =? LF then ([], piece :: pieces) else (c :: piece, pieces)
  end.

Definition split (s : jsstring) : list jsstring :=
  let '(piece, pieces) := split_LF s in piece :: pieces.

(** [lines.pop()] on the non-empty array [split] returns: the array without
    its last element, and that element. *)
Definition pop (lines : list jsstring) : list jsstring * jsstring :=
  (removelast lines, List.last lines []).

(** ASCII lower-casing of a header name (header names match
    case-insensitively in [Headers.get]). *)
Definition lower (c : N) : N :=
  if (0x41 <=? c) && (c <=? 0x5A) then c + 0x20 else c.

(** Decimal digits of a non-negative integer, as [Number::toString] prints
    an integer below 2^53. *)
Fixpoint uint_digits (u : Decimal.uint) : jsstring :=
  match u with
  | Decimal.Nil => []
  | Decimal.D0 u => 48 :: uint_digits u
  | Decimal.D1 u => 49 :: uint_digits u
  | Decimal.D2 u => 50 :: uint_digits u
  | Decimal.D3 u => 51 :: uint_digits u
  | Decimal.D4 u => 52 :: uint_digits u
  | Decimal.D5 u => 53 :: uint_digits u
  | Decimal.D6 u => 54 :: uint_digits u
  | Decimal.D7 u => 55 :: uint_digits u
  | Decimal.D8 u => 56 :: uint_digits u
  | Decimal.D9 u => 57 :: uint_digits u
  end.

Definition decimal (n : N) : jsstring := uint_digits (N.to_uint n).

(** ** The streaming UTF-8 decoder behind [new TextDecoder()]

    The decoder of the WHATWG Encoding standard, one byte at a time: the
    state survives between [decode(value, { stream: true })] calls. *)

Module Utf8.

Record decoder := {
  code_point : N;
  bytes_seen : N;
  bytes_needed : N;
  lower_boundary : N;
  upper_boundary : N
}.

Definition init : decoder :=
  {| code_point := 0; bytes_seen := 0; bytes_needed := 0;
     lower_boundary := 0x80; upper_boundary := 0xBF |}.

Definition REPLACEMENT : N := 0xFFFD.

(** A byte read while no sequence is open. *)
Definition lead (b : N) : decoder * list N :=
  if b <=? 0x7F then (init, [b])
  else if (0xC2 <=? b) && (b <=? 0xDF) then
    ({| code_point := N.land b 0x1F; bytes_seen := 0; bytes_needed := 1;
        lower_boundary := 0x80; upper_boundary := 0xBF |}, [])
  else if (0xE0 <=? b) && (b <=? 0xEF) then
    ({| code_point := N.land b 0xF; bytes_seen := 0; bytes_needed := 2;
        lower_boundary := if b =? 0xE0 then 0xA0 else 0x80;
        upper_boundary := if b =? 0xED then 0x9F else 0xBF |}, [])
  else if (0xF0 <=? b) && (b <=? 0xF4) then
    ({| code_point := N.land b 0x7; bytes_seen := 0; bytes_needed := 3;
        lower_boundary := if b =? 0xF0 then 0x90 else 0x80;
        upper_boundary := if b =? 0xF4 then 0x8F else 0xBF |}, [])
  else (init, [REPLACEMENT]).

(** The handler: the new state and the code points emitted for one byte.
    A byte that cannot continue the open sequence yields U+FFFD and is then
    read again as a lead byte. *)
Definition handler (d : decoder) (b : N) : decoder * list N :=
  if bytes_needed d =? 0 then lead b
  else if (b <? lower_boundary d) || (upper_boundary d <? b) then
    let '(d', out) := lead b in (d', REPLACEMENT :: out)
  else
    let cp := N.lor (N.shiftl (code_point d) 6) (N.land b 0x3F) in
    let seen := bytes_seen d + 1 in
    if seen =? bytes_needed d then (init, [cp])
    else ({| code_point := cp; bytes_seen := seen;
             bytes_needed := bytes_needed d;
             lower_boundary := 0x80; upper_boundary := 0xBF |}, []).

(** The UTF-16 code units of a scalar value. *)
Definition utf16 (cp : N) : jsstring :=
  if cp <? 0x10000 then [cp]
  else let c := cp - 0x10000 in
       [0xD800 + N.shiftr c 10; 0xDC00 + N.land c 0x3FF].

End Utf8.

Record TextDecoder := {
  utf8 : Utf8.decoder;
  bom_seen : bool
}.

Definition new_TextDecoder : TextDecoder :=
  {| utf8 := Utf8.init; bom_seen := false |}.

(** Serialising the decoded code points: the first one is dropped when it
    is the byte order mark. *)
Fixpoint serialize (bom : bool) (cps : list N) : bool * jsstring :=
  match cps with
  | [] => (bom, [])
  | cp :: cps' =>
      if bom then
        let '(bom', out) := serialize true cps' in (bom', Utf8.utf16 cp ++ out)
      else if cp =? 0xFEFF then serialize true cps'
      else let '(bom', out) := serialize true cps' in
           (bom', Utf8.utf16 cp ++ out)
  end.

Definition decode_byte (td : TextDecoder) (b : Byte.byte) : TextDecoder * jsstring :=
  let '(d, cps) := Utf8.handler (utf8 td) (Byte.to_N b) in
  let '(bom, out) := serialize (bom_seen td) cps in
  ({| utf8 := d; bom_seen := bom |}, out).

(** [decoder.decode(value, { stream: true })]: the bytes go through the
    handler in order and nothing is flushed at the end of the chunk. *)
Fixpoint decode (td : TextDecoder) (value : list Byte.byte) : TextDecoder * jsstring :=
  match value with
  | [] => (td, [])
  | b :: value' =>
      let '(td1, out1) := decode_byte td b in
      let '(td2, out2) := decode td1 value' in
      (td2, out1 ++ out2)
  end.

(** The non-streaming decode behind [response.text()] and
    [response.json()]: a sequence left open at the end is flushed as
    U+FFFD. *)
Definition decode_all (bytes : list Byte.byte) : jsstring :=
  let '(td, out) := decode new_TextDecoder bytes in
  if Utf8.bytes_needed (utf8 td) =? 0 then out
  else out ++ snd (serialize (bom_seen td) [Utf8.REPLACEMENT]).

(** ** JSON values and [JSON.parse] *)

(** A JSON number keeps the exact decimal value of its literal,
    [mantissa * 10 ^ exponent]; JavaScript rounds that value to a double. *)
#[warnings="-register-all"]
Inductive value :=
  | JNull
  | JBool (b : bool)
  | JNum (mantissa exponent : Z)
  | JStr (s : jsstring)
  | JArr (elements : list value)
  | JObj (members : list (jsstring * value)).

(** The own property [k] of an object [JSON.parse] built: a later
    duplicate of a key replaces the earlier one. *)
Fixpoint own_property (members : list (jsstring * value)) (k : jsstring)
  : option value :=
  match members with
  | [] => None
  | (k', v) :: members' =>
      match own_property members' k with
      | Some v' => Some v'
      | None => if jsstring_eqb k' k then Some v else None
      end
  end.

(** Whether the double nearest to [m * 10 ^ e] is zero: the value is at
    most 2^-1075, half the least positive double. *)
Definition rounds_to_zero (m e : Z) : bool :=
  ((m =? 0) || ((e <? 0) && (Z.abs m * 2 ^ 1075 <=? 10 ^ (- e))))%Z.

(** ToBoolean. *)
Definition truthy (v : value) : bool :=
  match v with
  | JNull => false
  | JBool b => b
  | JNum m e => negb (rounds_to_zero m e)
  | JStr s => negb (jsstring_eqb s [])
  | JArr _ | JObj _ => true
  end.

Module Json.

Definition is_ws (c : N) : bool :=
  (c =? 0x20) || (c =? 0x09) || (c =? 0x0A) || (c =? 0x0D).

Fixpoint skip_ws (s : jsstring) : jsstring :=
  match s with
  | c :: s' => if is_ws c then skip_ws s' else s
  | [] => []
  end.

Definition is_digit (c : N) : bool := (0x30 <=? c) && (c <=? 0x39).

Definition hex_digit (c : N) : option N :=
  if is_digit c then Some (c - 0x30)
  else if (0x41 <=? c) && (c <=? 0x46) then Some (c - 0x41 + 10)
  else if (0x61 <=? c) && (c <=? 0x66) then Some (c - 0x61 + 10)
  else None.

Definition hex4 (a b c d : N) : option N :=
  match hex_digit a, hex_digit b, hex_digit c, hex_digit d with
  | Some a, Some b, Some c, Some d => Some (((a * 16 + b) * 16 + c) * 16 + d)
  | _, _, _, _ => None
  end.

(** The characters of a string literal after its opening quote, up to the
    closing quote; [acc] holds the decoded characters, last first. *)
Fixpoint string_chars (s : jsstring) (acc : jsstring)
  : option (jsstring * jsstring) :=
  match s with
  | [] => None
  | c :: s' =>
      if c =? 0x22 then Some (rev acc, s')
      else if c <? 0x20 then None
      else if c =? 0x5C then
        match s' with
        | [] => None
        | e :: s'' =>
            if e =? 0x22 then string_chars s'' (0x22 :: acc)
            else if e =? 0x5C then string_chars s'' (0x5C :: acc)
            else if e =? 0x2F then string_chars s'' (0x2F :: acc)
            else if e =? 0x62 then string_chars s'' (0x08 :: acc)
            else if e =? 0x66 then string_chars s'' (0x0C :: acc)
            else if e =? 0x6E then string_chars s'' (0x0A :: acc)
            else if e =? 0x72 then string_chars s'' (0x0D :: acc)
            else if e =? 0x74 then string_chars s'' (0x09 :: acc)
            else if e =? 0x75 then
              match s'' with
              | h1 :: h2 :: h3 :: h4 :: s''' =>
                  match hex4 h1 h2 h3 h4 with
                  | Some u => string_chars s''' (u :: acc)
                  | None => None
                  end
              | _ => None
              end
            else None
        end
      else string_chars s' (c :: acc)
  end.

(** The longest prefix of digits, and what follows it. *)
Fixpoint digits (s : jsstring) : list N * jsstring :=
  match s with
  | c :: s' =>
      if is_digit c then let '(ds, r) := digits s' in (c - 0x30 :: ds, r)
      else ([], s)
  | [] => ([], [])
  end.

Definition digits_value (ds : list N) : Z :=
  fold_left (fun acc d => acc * 10 + Z.of_N d)%Z ds 0%Z.

(** The integer part of a number: a single 0, or digits that do not start
    with 0. *)
Definition int_part (s : jsstring) : option (list N * jsstring) :=
  match s with
  | c :: s' =>
      if c =? 0x30 then Some ([0], s')
      else if is_digit c then Some (digits s)
      else None
  | [] => None
  end.

Definition frac_part (s : jsstring) : option (list N * jsstring) :=
  match s with
  | c :: s' =>
      if c =? 0x2E then
        match digits s' with
        | ([], _) => None
        | (ds, r) => Some (ds, r)
        end
      else Some ([], s)
  | [] => Some ([], [])
  end.

Definition exp_part (s : jsstring) : option (Z * jsstring) :=
  match s with
  | c :: s' =>
      if (c =? 0x65) || (c =? 0x45) then
        let '(neg, s'') :=
          match s' with
          | sg :: t => if sg =? 0x2D then (true, t)
                       else if sg =? 0x2B then (false, t) else (false, s')
          | [] => (false, s')
          end in
        match digits s'' with
        | ([], _) => None
        | (ds, r) =>
            Some ((if neg then - digits_value ds else digits_value ds)%Z, r)
        end
      else Some (0%Z, s)
  | [] => Some (0%Z, [])
  end.

Definition number (s : jsstring) : option (value * jsstring) :=
  let '(neg, s1) :=
    match s with
    | c :: s' => if c =? 0x2D then (true, s') else (false, s)
    | [] => (false, s)
    end in
  '(ip, s2) ← int_part s1;
  '(fp, s3) ← frac_part s2;
  '(ex, s4) ← exp_part s3;
  let m := digits_value (ip ++ fp) in
  Some (JNum (if neg then - m else m)%Z (ex - Z.of_nat (length fp))%Z, s4).

Definition literal (word : jsstring) (v : value) (s : jsstring)
  : option (value * jsstring) :=
  if startsWith s word then Some (v, drop (length word) s) else None.

(** Recursive descent; [fuel] bounds the chain of nested calls.  Two
    successive calls always consume a character between them, so twice the
    length of the text, plus two, is never exhausted. *)
Fixpoint parse_value (fuel : nat) (s : jsstring) : option (value * jsstring) :=
  match fuel with
  | O => None
  | S fuel' =>
      match skip_ws s with
      | [] => None
      | c :: r =>
          if c =? 0x7B then
            match skip_ws r with
            | c' :: r' =>
                if c' =? 0x7D then Some (JObj [], r')
                else parse_members fuel' r []
            | [] => None
            end
          else if c =? 0x5B then
            match skip_ws r with
            | c' :: r' =>
                if c' =? 0x5D then Some (JArr [], r')
                else parse_elements fuel' r []
            | [] => None
            end
          else if c =? 0x22 then
            '(str, r') ← string_chars r []; Some (JStr str, r')
          else if c =? 0x74 then literal (js "true") (JBool true) (c :: r)
          else if c =? 0x66 then literal (js "false") (JBool false) (c :: r)
          else if c =? 0x6E then literal (js "null") JNull (c :: r)
          else number (c :: r)
      end
  end
with parse_elements (fuel : nat) (s : jsstring) (acc : list value)
  : option (value * jsstring) :=
  match fuel with
  | O => None
  | S fuel' =>
      '(v, r) ← parse_value fuel' s;
      match skip_ws r with
      | c :: r' =>
          if c =? 0x2C then parse_elements fuel' r' (v :: acc)
          else if c =? 0x5D then Some (JArr (rev (v :: acc)), r')
          else None
      | [] => None
      end
  end
with parse_members (fuel : nat) (s : jsstring) (acc : list (jsstring * value))
  : option (value * jsstring) :=
  match fuel with
  | O => None
  | S fuel' =>
      match skip_ws s with
      | c :: r =>
          if c =? 0x22 then
            '(k, r1) ← string_chars r [];
            match skip_ws r1 with
            | c1 :: r2 =>
                if c1 =? 0x3A then
                  '(v, r3) ← parse_value fuel' r2;
                  match skip_ws r3 with
                  | c3 :: r4 =>
                      if c3 =? 0x2C then parse_members fuel' r4 ((k, v) :: acc)
                      else if c3 =? 0x7D then
                        Some (JObj (rev ((k, v) :: acc)), r4)
                      else None
                  | [] => None
                  end
                else None
            | [] => None
            end
          else None
      | [] => None
      end
  end.

End Json.

(** [JSON.parse(text)]; [None] stands for the [SyntaxError] it throws. *)
Definition JSON_parse (text : jsstring) : option value :=
  '(v, r) ← Json.parse_value (2 * length text + 2) text;
  match Json.skip_ws r with
  | [] => Some v
  | _ :: _ => None
  end.

(** ** Errors and the runtime *)

(** The places of src/mcpClient.js that create an error, and the platform
    as the source of every other one ([fetch], the body reader,
    [response.json()], a [TypeError] of the engine). *)
Inductive site :=
  | SseEnvelopeError   (* reject(new Error(parsed.error.message || 'SSE error')) *)
  | SseNoData          (* reject(new Error('No data received from SSE stream')) *)
  | HttpStatus         (* throw new Error(`HTTP ${status}: ${statusText}`) *)
  | JsonRpcError       (* throw new Error(result.error.message || 'Unknown MCP error') *)
  | Platform.

(** A JavaScript [Error].  The class keeps no error type of its own: what
    reaches the caller is the [message]; [origin] records where the error
    arose and is carried along when [sendRequest] wraps it. *)
Record Error := {
  origin : site;
  message : jsstring
}.

(** The error taxonomy of the specification (section 7), read off the
    origin: a JSON-RPC [error] member is a ProtocolError, everything else
    (network failure, HTTP status, empty stream) a TransportError. *)
Inductive kind := TransportError | ProtocolError.

Definition classify (e : Error) : kind :=
  match origin e with
  | SseEnvelopeError | JsonRpcError => ProtocolError
  | SseNoData | HttpStatus | Platform => TransportError
  end.

(** How a promise settles, or an async function completes. *)
Inductive Outcome (A : Type) :=
  | Resolved (a : A)
  | Rejected (e : Error).
Arguments Resolved {A} a.
Arguments Rejected {A} e.

(** The exceptions of the engine this code can provoke. *)
Inductive exception :=
  | JsonSyntaxError (text : jsstring)
  | NullPropertyRead (property : jsstring)
  | ObjectToPrimitive.

(** What the class takes from its runtime and this development leaves
    open: the digits [Number::toString] prints for a double, the wording of
    the engine's own exceptions, and whether [process.env.DEBUG_HEADERS] is
    set. *)
Class Runtime := {
  Number_toString : Z -> Z -> jsstring;
  exception_message : exception -> jsstring;
  DEBUG_HEADERS : bool
}.

Definition engine_error `{Runtime} (x : exception) : Error :=
  {| origin := Platform; message := exception_message x |}.

(** The member [k] of a parsed value other than [null], for the names this
    class reads ([jsonrpc], [error], [result], [message]): an own property
    of an object, [undefined] ([None]) on anything else. *)
Definition member (v : value) (k : jsstring) : option value :=
  match v with
  | JObj members => own_property members k
  | _ => None
  end.

(** [x === 'literal'], where [x] may be [undefined]. *)
Definition strict_equals_string (x : option value) (s : jsstring) : bool :=
  match x with
  | Some (JStr s') => jsstring_eqb s' s
  | _ => false
  end.

(** [x || fallback], where [x] may be [undefined]. *)
Definition or_else (x : option value) (fallback : value) : value :=
  match x with
  | Some v => if truthy v then v else fallback
  | None => fallback
  end.

Section Client.
Context `{Runtime}.

(** ToString, as [new Error(message)] applies it to its argument; [None]
    stands for the [TypeError] of an object that has no callable
    [toString] left (a member named [toString] hides the inherited one).
    An array goes through [Array.prototype.join]. *)
Fixpoint ToString (v : value) : option jsstring :=
  match v with
  | JNull => Some (js "null")
  | JBool true => Some (js "true")
  | JBool false => Some (js "false")
  | JNum m e => Some (Number_toString m e)
  | JStr s => Some s
  | JArr elements =>
      (fix join (l : list value) : option jsstring :=
         match l with
         | [] => Some []
         | x :: l' =>
             s ← match x with JNull => Some [] | _ => ToString x end;
             match l' with
             | [] => Some s
             | _ :: _ => r ← join l'; Some (s ++ js "," ++ r)
             end
         end) elements
  | JObj members =>
      match own_property members (js "toString") with
      | Some _ => None
      | None => Some (js "[object Object]")
      end
  end.

(** ** The SSE aggregation, [handleSSEResponse] *)

(** How the body of the [for (const line of lines)] loop leaves: on to the
    next line with the current [result], or out of [processChunk] after
    [reject]. *)
Inductive LineStep :=
  | Continue (result : value)
  | Reject (e : Error).

(** One iteration of the loop.  The three exceptions the inner [try] can
    see ([JSON.parse] failing, [parsed] being [null], [new Error] failing to
    convert its argument) are caught and the line is skipped. *)
Definition processLine (result : value) (line : jsstring) : LineStep :=
  if startsWith line (js "data: ") then
    let data := trim (slice_from 6 line) in
    if truthy (JStr data) then
      match JSON_parse data with
      | None => Continue result
      | Some JNull => Continue result
      | Some parsed =>
          if strict_equals_string (member parsed (js "jsonrpc")) (js "2.0")
          then
            let keep :=
              match member parsed (js "result") with
              | Some r => Continue r
              | None => Continue result
              end in
            match member parsed (js "error") with
            | Some error =>
                if truthy error then
                  match ToString (or_else (member error (js "message"))
                                          (JStr (js "SSE error"))) with
                  | Some msg =>
                      Reject {| origin := SseEnvelopeError; message := msg |}
                  | None => Continue result
                  end
                else keep
            | None => keep
            end
          else Continue result
      end
    else Continue result
  else Continue result.

Fixpoint for_lines (result : value) (lines : list jsstring) : LineStep :=
  match lines with
  | [] => Continue result
  | line :: lines' =>
      match processLine result line with
      | Continue result' => for_lines result' lines'
      | Reject e => Reject e
      end
  end.

(** A response body as its reader delivers it: the chunks, then the end of
    the stream or a failed read. *)
Inductive ending :=
  | StreamEnd
  | StreamError (e : Error).

Record Body := {
  chunks : list (list Byte.byte);
  final : ending
}.

(** [processChunk], one call per [reader.read()].  The variables the
    closure shares ([decoder], [buffer], [result]) are threaded through;
    the second component is what the reader has left unread when the
    promise settles. *)
Fixpoint processChunk (decoder : TextDecoder) (buffer : jsstring)
    (result : value) (unread : list (list Byte.byte)) (final : ending)
  : Outcome value * list (list Byte.byte) :=
  match unread with
  | [] =>
      match final with
      | StreamEnd =>
          if truthy result then (Resolved result, [])
          else (Rejected {| origin := SseNoData;
                            message := js "No data received from SSE stream" |},
                [])
      | StreamError e => (Rejected e, [])
      end
  | value :: unread' =>
      let '(decoder', text) := decode decoder value in
      let buffer := buffer ++ text in
      let '(lines, last) := pop (split buffer) in
      let buffer := last in
      match for_lines result lines with
      | Reject e => (Rejected e, unread')
      | Continue result' => processChunk decoder' buffer result' unread' final
      end
  end.

Definition handleSSEResponse (body : Body) : Outcome value * list (list Byte.byte) :=
  processChunk new_TextDecoder [] JNull (chunks body) (final body).

(** ** The platform seen by the client: requests, responses, console *)

(** The object literal [{ jsonrpc, id, method, params }] handed to
    [JSON.stringify]; a notification has no [id]. *)
Record Message := {
  jsonrpc : jsstring;
  id : option Z;
  method : jsstring;
  params : value
}.

(** The arguments of one [fetch(url, { method, headers, body })] call.
    [req_headers] is the plain object passed as [headers]: its keys are
    compared as written. *)
Record HttpRequest := {
  req_url : jsstring;
  req_method : jsstring;
  req_headers : gmap jsstring jsstring;
  req_body : Message
}.

Record Response := {
  status : N;
  statusText : jsstring;
  response_headers : list (jsstring * jsstring);
  body : Body
}.

(** [response.ok]. *)
Definition ok (r : Response) : bool := (200 <=? status r) && (status r <=? 299).

(** [response.headers.get(name)]: names match without regard to ASCII
    case, several values are joined by a comma and a space, and a header
    that is absent gives [null]. *)
Definition Headers_get (hs : list (jsstring * jsstring)) (name : jsstring)
  : option jsstring :=
  match filter (fun h => lower <$> h.1 = lower <$> name) hs with
  | [] => None
  | h :: hs' => Some (foldl (fun acc h' => acc ++ js ", " ++ h'.2) h.2 hs')
  end.

(** The remote end: what [fetch] settles with, given every request sent so
    far on this client (the current one last). *)
Definition Network := list HttpRequest -> Outcome Response.

Inductive LogArg :=
  | Text (s : jsstring)
  | Object (v : value)
  | HeadersObject (h : gmap jsstring jsstring).

Inductive level := LevelLog | LevelWarn | LevelError.

Record LogEntry := {
  log_level : level;
  log_args : list LogArg
}.

(** ** The client object and its methods *)

Record MCPClient := {
  url : jsstring;
  headers : gmap jsstring jsstring;
  sessionId : option jsstring;
  requestId : Z
}.

Record ServerConfig := {
  config_url : jsstring;
  config_headers : option (gmap jsstring jsstring)
}.

(** [new MCPClient(serverConfig, sessionId = null)]. *)
Definition constructor (serverConfig : ServerConfig)
    (sessionId : option jsstring) : MCPClient :=
  {| url := config_url serverConfig;
     headers := default ∅ (config_headers serverConfig);
     sessionId := sessionId;
     requestId := 0 |}.

(** What a method call can change: the fields of [this], the requests
    that went out, the console. *)
Record World := {
  this : MCPClient;
  wire : list HttpRequest;
  console : list LogEntry
}.

Definition M (A : Type) : Type := World -> Outcome A * World.

Definition ret {A} (a : A) : M A := fun w => (Resolved a, w).

Definition throw {A} (e : Error) : M A := fun w => (Rejected e, w).

Definition bind {A B} (m : M A) (k : A -> M B) : M B :=
  fun w =>
    match m w with
    | (Resolved a, w') => k a w'
    | (Rejected e, w') => (Rejected e, w')
    end.

(** [try { m } catch (error) { handler }]. *)
Definition try_catch {A} (m : M A) (handler : Error -> M A) : M A :=
  fun w =>
    match m w with
    | (Resolved a, w') => (Resolved a, w')
    | (Rejected e, w') => handler e w'
    end.

(** [await promise] on a promise that has settled with [o]. *)
Definition await {A} (o : Outcome A) : M A := fun w => (o, w).

Notation "'let*' x := m 'in' k" := (bind m (fun x => k))
  (at level 10, x name, m at level 100, k at level 200).
Notation "m ;; k" := (bind m (fun _ => k))
  (at level 100, k at level 200, right associativity).

Definition get_this : M MCPClient := fun w => (Resolved (this w), w).

Definition console_write (l : level) (args : list LogArg) : M unit :=
  fun w => (Resolved tt,
            {| this := this w; wire := wire w;
               console := console w ++ [{| log_level := l; log_args := args |}] |}).

Definition when (b : bool) (m : M unit) : M unit := if b then m else ret tt.

Variable net : Network.

(** [fetch]: the request goes on the wire and the network answers. *)
Definition fetch (request : HttpRequest) : M Response :=
  fun w =>
    let sent := wire w ++ [request] in
    (net sent, {| this := this w; wire := sent; console := console w |}).

(** [++n] on the values the counter takes, the integers from 0 to 2^53:
    above 2^53 - 1 the sum is no longer a double and rounds back. *)
Definition increment (n : Z) : Z :=
  if (n <? 2 ^ 53)%Z then (n + 1)%Z else n.

(** [getNextRequestId() { return ++this.requestId; }] *)
Definition getNextRequestId : M Z :=
  fun w =>
    let n := increment (requestId (this w)) in
    (Resolved n,
     {| this := {| url := url (this w); headers := headers (this w);
                   sessionId := sessionId (this w); requestId := n |};
        wire := wire w; console := console w |}).

(** A string or [null] in a condition. *)
Definition truthy_string (s : option jsstring) : option jsstring :=
  match s with
  | Some (c :: s') => Some (c :: s')
  | _ => None
  end.

Definition is_event_stream (response : Response) : bool :=
  match truthy_string (Headers_get (response_headers response) (js "content-type")) with
  | Some contentType => includes contentType (js "text/event-stream")
  | None => false
  end.

(** [await response.text()]. *)
Definition Response_text (response : Response) : Outcome jsstring :=
  match final (body response) with
  | StreamEnd => Resolved (decode_all (concat (chunks (body response))))
  | StreamError e => Rejected e
  end.

(** [await response.json()]. *)
Definition Response_json (response : Response) : Outcome value :=
  match Response_text response with
  | Resolved text =>
      match JSON_parse text with
      | Some v => Resolved v
      | None => Rejected (engine_error (JsonSyntaxError text))
      end
  | Rejected e => Rejected e
  end.

(** The branch both [sendRequest] and [initialize] take on a response that
    is not OK: the status line is logged, then the start of the body if
    there is one, and the status line is thrown. *)
Definition throw_http_error {A} (response : Response) : M A :=
  let errorBody :=
    match Response_text response with
    | Resolved text => text
    | Rejected _ => []
    end in
  let line := js "HTTP " ++ decimal (status response) ++ js ": "
              ++ statusText response in
  console_write LevelError [Text (js "[MCP] " ++ line)];;
  when (truthy (JStr errorBody))
    (console_write LevelError
       [Text (js "[MCP] Error response:"); Text (substring0 500 errorBody)]);;
  throw {| origin := HttpStatus; message := line |}.

(** The JSON branch after [response.json()]: a truthy [error] member is
    logged and thrown, otherwise the [result] member (or [undefined]) is
    the result. *)
Definition json_result (result : value) : M (option value) :=
  match result with
  | JNull => throw (engine_error (NullPropertyRead (js "error")))
  | _ =>
      match member result (js "error") with
      | Some error =>
          if truthy error then
            console_write LevelError [Text (js "[MCP] JSON-RPC error:"); Object error];;
            match ToString (or_else (member error (js "message"))
                                    (JStr (js "Unknown MCP error"))) with
            | Some msg => throw {| origin := JsonRpcError; message := msg |}
            | None => throw (engine_error ObjectToPrimitive)
            end
          else ret (member result (js "result"))
      | None => ret (member result (js "result"))
      end
  end.

(** The object [{ 'Content-Type': 'application/json', ...this.headers }]:
    a configured key replaces the fixed one. *)
Definition base_headers (c : MCPClient) : gmap jsstring jsstring :=
  headers c ∪ {[ js "Content-Type" := js "application/json" ]}.

Definition post (c : MCPClient) (hs : gmap jsstring jsstring) (m : Message)
  : HttpRequest :=
  {| req_url := url c; req_method := js "POST"; req_headers := hs; req_body := m |}.

(** [new Error(`MCP request failed: ${error.message}`)]: a new error
    around the message of the one caught. *)
Definition request_failed (error : Error) : Error :=
  {| origin := origin error;
     message := js "MCP request failed: " ++ message error |}.

(** [async sendRequest(method, params = {})] *)
Definition sendRequest (method : jsstring) (params : value) : M (option value) :=
  let* requestId := getNextRequestId in
  let* c := get_this in
  let request :=
    {| jsonrpc := js "2.0"; id := Some requestId; method := method; params := params |} in
  console_write LevelLog
    [Text (js "[MCP] Sending " ++ method ++ js " to " ++ url c)];;
  when DEBUG_HEADERS
    (console_write LevelLog [Text (js "[MCP] Headers:"); HeadersObject (headers c)]);;
  let requestHeaders := base_headers c in
  let* requestHeaders :=
    match truthy_string (sessionId c) with
    | Some sid =>
        console_write LevelLog
          [Text (js "[MCP] Using session ID: " ++ substring0 20 sid ++ js "...")];;
        ret (<[ js "Mcp-Session-Id" := sid ]> requestHeaders)
    | None => ret requestHeaders
    end in
  try_catch
    (let* response := fetch (post c requestHeaders request) in
     if is_event_stream response then
       console_write LevelLog [Text (js "[MCP] Received SSE response")];;
       let* result := await (handleSSEResponse (body response)).1 in
       ret (Some result)
     else if negb (ok response) then throw_http_error response
     else
       let* result := await (Response_json response) in
       let* r := json_result result in
       console_write LevelLog [Text (js "[MCP] " ++ method ++ js " successful")];;
       ret r)
    (fun error => throw (request_failed error)).

(** [async sendNotification(method, params = {})]: the response is not
    looked at and a failed [fetch] only leaves a warning. *)
Definition sendNotification (method : jsstring) (params : value) : M unit :=
  let* c := get_this in
  let notification :=
    {| jsonrpc := js "2.0"; id := None; method := method; params := params |} in
  try_catch
    (let* _ := fetch (post c (base_headers c) notification) in ret tt)
    (fun error =>
       console_write LevelWarn
         [Text (js "Notification " ++ method ++ js " failed:"); Text (message error)]).

Definition set_sessionId (sid : jsstring) : M unit :=
  fun w =>
    (Resolved tt,
     {| this := {| url := url (this w); headers := headers (this w);
                   sessionId := Some sid; requestId := requestId (this w) |};
        wire := wire w; console := console w |}).

(** [async initialize()]: resolves with [{ result, sessionId }]. *)
Definition initialize : M (option value * option jsstring) :=
  let params := JObj [(js "protocolVersion", JStr (js "2025-06-18"))] in
  let* requestId := getNextRequestId in
  let* c := get_this in
  let request :=
    {| jsonrpc := js "2.0"; id := Some requestId; method := js "initialize";
       params := params |} in
  console_write LevelLog [Text (js "[MCP] Initializing session with " ++ url c)];;
  let requestHeaders := base_headers c in
  let* response := fetch (post c requestHeaders request) in
  match truthy_string (Headers_get (response_headers response) (js "mcp-session-id")) with
  | Some sessionId =>
      set_sessionId sessionId;;
      console_write LevelLog
        [Text (js "[MCP] Received session ID: " ++ substring0 20 sessionId ++ js "...")]
  | None =>
      console_write LevelLog [Text (js "[MCP] No session ID returned by server")]
  end;;
  let* result :=
    if is_event_stream response then
      console_write LevelLog [Text (js "[MCP] Received SSE response")];;
      let* result := await (handleSSEResponse (body response)).1 in
      ret (Some result)
    else if negb (ok response) then throw_http_error response
    else
      let* jsonResult := await (Response_json response) in
      json_result jsonResult
  in
  sendNotification (js "notifications/initialized") (JObj []);;
  console_write LevelLog [Text (js "[MCP] Initialize successful")];;
  let* c := get_this in
  ret (result, sessionId c).

(** [async listTools(cursor = null)] *)
Definition listTools (cursor : option jsstring) : M (option value) :=
  let params :=
    match truthy_string cursor with
    | Some cursor => JObj [(js "cursor", JStr cursor)]
    | None => JObj []
    end in
  sendRequest (js "tools/list") params.

(** [async callTool(toolName, args)] *)
Definition callTool (toolName : jsstring) (args : value) : M (option value) :=
  let params := JObj [(js "name", JStr toolName); (js "arguments", args)] in
  sendRequest (js "tools/call") params.

End Client.

(** ** Callers, sample data and the vocabulary of the properties *)

(** A caller's use of one client: calls issued one after the other, each
    awaited, whatever its outcome. *)
Inductive call :=
  | Initialize
  | ListTools (cursor : option jsstring)
  | CallTool (toolName : jsstring) (args : value).

Definition perform `{Runtime} (net : Network) (c : call) : M unit :=
  fun w =>
    match c with
    | Initialize => (Resolved tt, (initialize net w).2)
    | ListTools cursor => (Resolved tt, (listTools net cursor w).2)
    | CallTool toolName args => (Resolved tt, (callTool net toolName args w).2)
    end.

Fixpoint run `{Runtime} (net : Network) (calls : list call) (w : World) : World :=
  match calls with
  | [] => w
  | c :: calls' => run net calls' (perform net c w).2
  end.

(** The world of a client just constructed. *)
Definition fresh (serverConfig : ServerConfig) (sessionId : option jsstring) : World :=
  {| this := constructor serverConfig sessionId; wire := []; console := [] |}.

(** The headers of a request [sendRequest] sends: the fixed and the
    configured ones, then the session id when there is one. *)
Definition request_headers (c : MCPClient) : gmap jsstring jsstring :=
  match truthy_string (sessionId c) with
  | Some sid => <[ js "Mcp-Session-Id" := sid ]> (base_headers c)
  | None => base_headers c
  end.

(** The request [sendRequest] hands to [fetch], from the client as it is
    before the call. *)
Definition sendRequest_fetch (c : MCPClient) (method : jsstring) (params : value)
  : HttpRequest :=
  {| req_url := url c; req_method := js "POST";
     req_headers := request_headers c;
     req_body := {| jsonrpc := js "2.0"; id := Some (increment (requestId c));
                    method := method; params := params |} |}.

(** The request [initialize] hands to [fetch]. *)
Definition initialize_fetch (c : MCPClient) : HttpRequest :=
  {| req_url := url c; req_method := js "POST";
     req_headers := base_headers c;
     req_body := {| jsonrpc := js "2.0"; id := Some (increment (requestId c));
                    method := js "initialize";
                    params := JObj [(js "protocolVersion", JStr (js "2025-06-18"))] |} |}.

(** What the body of the response comes to once [response.json()] has
    resolved, the logging left aside. *)
Definition json_outcome `{Runtime} (result : value) : Outcome (option value) :=
  match result with
  | JNull => Rejected (engine_error (NullPropertyRead (js "error")))
  | _ =>
      match member result (js "error") with
      | Some error =>
          if truthy error then
            match ToString (or_else (member error (js "message"))
                                    (JStr (js "Unknown MCP error"))) with
            | Some msg => Rejected {| origin := JsonRpcError; message := msg |}
            | None => Rejected (engine_error ObjectToPrimitive)
            end
          else Resolved (member result (js "result"))
      | None => Resolved (member result (js "result"))
      end
  end.

(** [`HTTP ${response.status}: ${response.statusText}`] *)
Definition status_line (response : Response) : jsstring :=
  js "HTTP " ++ decimal (status response) ++ js ": " ++ statusText response.

(** What a response comes to in [sendRequest] and in [initialize] alike,
    before either wraps or pairs it: the aggregated stream, the status
    error, or the JSON body. *)
Definition response_outcome `{Runtime} (response : Response)
  : Outcome (option value) :=
  if is_event_stream response then
    match (handleSSEResponse (body response)).1 with
    | Resolved v => Resolved (Some v)
    | Rejected e => Rejected e
    end
  else if negb (ok response) then
    Rejected {| origin := HttpStatus; message := status_line response |}
  else
    match Response_json response with
    | Resolved v => json_outcome v
    | Rejected e => Rejected e
    end.

(** What the branch for a response that is not OK writes to the console. *)
Definition http_error_log (response : Response) : list LogEntry :=
  {| log_level := LevelError;
     log_args := [Text (js "[MCP] " ++ status_line response)] |} ::
  match Response_text response with
  | Resolved (c :: body_text) =>
      [{| log_level := LevelError;
          log_args := [Text (js "[MCP] Error response:");
                       Text (substring0 500 (c :: body_text))] |}]
  | _ => []
  end.

(** The request [sendNotification] hands to [fetch]. *)
Definition sendNotification_fetch (c : MCPClient) (method : jsstring)
    (params : value) : HttpRequest :=
  {| req_url := url c; req_method := js "POST";
     req_headers := base_headers c;
     req_body := {| jsonrpc := js "2.0"; id := None;
                    method := method; params := params |} |}.

(** The client after [getNextRequestId]. *)
Definition bump (c : MCPClient) : MCPClient :=
  {| url := url c; headers := headers c; sessionId := sessionId c;
     requestId := increment (requestId c) |}.

(** The session id [initialize] leaves in the client, by what [fetch]
    settled with. *)
Definition session_after (c : MCPClient) (o : Outcome Response) : option jsstring :=
  match o with
  | Resolved response =>
      match truthy_string (Headers_get (response_headers response)
                                       (js "mcp-session-id")) with
      | Some sid => Some sid
      | None => sessionId c
      end
  | Rejected _ => sessionId c
  end.

Definition is_request_call (c : call) : bool :=
  match c with
  | Initialize => false
  | ListTools _ | CallTool _ _ => true
  end.

(** The ids of the JSON-RPC requests among the messages sent. *)
Definition request_ids (sent : list HttpRequest) : list Z :=
  omap (fun r => id (req_body r)) sent.

(** The text a stream of bytes decodes to, and the lines of a text that a
    line feed has completed. *)
Definition text_of (bytes : list Byte.byte) : jsstring :=
  (decode new_TextDecoder bytes).2.

Definition complete_lines (text : jsstring) : list jsstring :=
  (pop (split text)).1.

Definition partial_line (text : jsstring) : jsstring :=
  (pop (split text)).2.

(** The JSON-RPC 2.0 envelope a line carries: the line starts with
    [data: ] and what follows parses to a value whose [jsonrpc] member is
    the string 2.0. *)
Definition envelope (line : jsstring) : option value :=
  if startsWith line (js "data: ") then
    match JSON_parse (trim (slice_from 6 line)) with
    | Some parsed =>
        if strict_equals_string (member parsed (js "jsonrpc")) (js "2.0")
        then Some parsed else None
    | None => None
    end
  else None.

(** The [error] member of an envelope when it is truthy (not [null],
    [false], zero or the empty string): what [if (parsed.error)] lets
    through. *)
Definition error_member (env : value) : option value :=
  match member env (js "error") with
  | Some error => if truthy error then Some error else None
  | None => None
  end.

(** The message reported for an error member: the [message] the server
    supplied when that is a non-empty string, the fixed text when there is
    none or a falsy one.  A truthy message that is not a string is left
    open here. *)
Definition reported_message (fallback : jsstring) (error : value) : option jsstring :=
  match member error (js "message") with
  | Some (JStr (c :: m)) => Some (c :: m)
  | Some m => if truthy m then None else Some fallback
  | None => Some fallback
  end.

(** The line is not an envelope with a truthy [error] member. *)
Definition no_error (line : jsstring) : bool :=
  match envelope line with
  | Some env => match error_member env with Some _ => false | None => true end
  | None => true
  end.

(** The line is not an envelope with an [error] member of any value. *)
Definition no_error_key (line : jsstring) : bool :=
  match envelope line with
  | Some env => match member env (js "error") with Some _ => false | None => true end
  | None => true
  end.

(** The line is not an envelope with a [result] member. *)
Definition no_result (line : jsstring) : bool :=
  match envelope line with
  | Some env => match member env (js "result") with Some _ => false | None => true end
  | None => true
  end.

(** A runtime to evaluate examples with.  The exception texts are V8's for
    the two [TypeError]s; a syntax error is given one fixed text and a
    number is printed as the integer or the scientific form of its
    literal, which is what V8 prints for an integer literal below 2^53.
    No example below depends on these choices. *)
Definition sample_number (m e : Z) : jsstring :=
  (if (m <? 0)%Z then js "-" else []) ++ decimal (Z.to_N (Z.abs m)) ++
  (if (e =? 0)%Z then []
   else js "e" ++ (if (e <? 0)%Z then js "-" else js "+")
        ++ decimal (Z.to_N (Z.abs e))).

Definition sample_exception (x : exception) : jsstring :=
  match x with
  | JsonSyntaxError _ => js "Unexpected end of JSON input"
  | NullPropertyRead p =>
      js "Cannot read properties of null (reading '" ++ p ++ js "')"
  | ObjectToPrimitive => js "Cannot convert object to primitive value"
  end.

#[export] Instance sample_runtime : Runtime :=
  {| Number_toString := sample_number;
     exception_message := sample_exception;
     DEBUG_HEADERS := false |}.

(** Bytes of an ASCII text in which an apostrophe stands for the double
    quote of JSON. *)
Definition bytes (s : string) : list Byte.byte :=
  (fun a => if Ascii.eqb a "'" then Byte.x22 else byte_of_ascii a)
    <$> String.list_ascii_of_string s.

(** The same convention for a JavaScript string. *)
Definition text (s : string) : jsstring :=
  (fun c => if c =? 0x27 then 0x22 else c) <$> js s.

(** A line of an event stream: the text and its line feed. *)
Definition sse_line (s : string) : list Byte.byte := bytes s ++ [Byte.x0a].

(** The reduction of the whole text at once: the lines are folded in
    order from [result = null], and the end of the stream settles what the
    loop has not. *)
Definition aggregate_from `{Runtime} (result : value) (final : ending)
    (lines : list jsstring) : Outcome value :=
  match for_lines result lines with
  | Reject e => Rejected e
  | Continue result' => (processChunk new_TextDecoder [] result' [] final).1
  end.

Definition aggregate `{Runtime} (final : ending) (lines : list jsstring)
  : Outcome value :=
  aggregate_from JNull final lines.

(** The two events of the specification's example: a result, then an
    error. *)
Definition result_then_error : list Byte.byte :=
  sse_line "data: {'jsonrpc':'2.0','id':2,'result':{'ok':true}}" ++ sse_line "" ++
  sse_line "data: {'jsonrpc':'2.0','id':2,'error':{'message':'boom'}}" ++ sse_line "".

(** The same two events in the other order. *)
Definition error_then_result : list Byte.byte :=
  sse_line "data: {'jsonrpc':'2.0','id':2,'error':{'message':'boom'}}" ++ sse_line "" ++
  sse_line "data: {'jsonrpc':'2.0','id':2,'result':{'ok':true}}" ++ sse_line "".

(** A progress notification, a first result, then the final one. *)
Definition two_results : list Byte.byte :=
  sse_line "event: message" ++
  sse_line "data: {'jsonrpc':'2.0','method':'notifications/progress'}" ++ sse_line "" ++
  sse_line "data: {'jsonrpc':'2.0','id':2,'result':{'ok':false}}" ++ sse_line "" ++
  sse_line "data: {'jsonrpc':'2.0','id':2,'result':{'ok':true}}" ++ sse_line "".

(** A success envelope in the older style, with [error] set to null. *)
Definition null_error : list Byte.byte :=
  sse_line "data: {'jsonrpc':'2.0','id':1,'result':{'ok':true},'error':null}" ++
  sse_line "".

Definition null_result : list Byte.byte :=
  sse_line "data: {'jsonrpc':'2.0','id':1,'result':null}" ++ sse_line "".

(** Keep-alive comments and an event that is not JSON-RPC. *)
Definition no_envelopes : list Byte.byte :=
  sse_line ": ping" ++ sse_line "data: hello" ++ sse_line "" ++
  sse_line "data: {'status':'ok'}" ++ sse_line "".

(** A result with a two-byte character, U+00E9, in it. *)
Definition accented_prefix : list Byte.byte :=
  bytes "data: {'jsonrpc':'2.0','id':3,'result':'caf".

Definition accented : list Byte.byte :=
  accented_prefix ++ [Byte.xc3; Byte.xa9] ++ sse_line "'}" ++ sse_line "".

Definition ok_true : value := JObj [(js "ok", JBool true)].

Definition whole (stream : list Byte.byte) : Body :=
  {| chunks := [stream]; final := StreamEnd |}.

(** The stream cut after its first [n] bytes. *)
Definition cut (n : nat) (stream : list Byte.byte) : Body :=
  {| chunks := [take n stream; drop n stream]; final := StreamEnd |}.

Definition sample_config : ServerConfig :=
  {| config_url := js "https://mcp.example/rpc";
     config_headers := Some {[ js "Authorization" := js "Bearer token" ]} |}.

(** A configuration that sets both contested headers itself. *)
Definition contested_config : ServerConfig :=
  {| config_url := js "https://mcp.example/rpc";
     config_headers :=
       Some (<[ js "Content-Type" := js "application/json; charset=utf-8" ]>
               {[ js "Mcp-Session-Id" := js "configured" ]}) |}.

(** A 200 response with a JSON body and, when [session] is not empty, a
    session header. *)
Definition json_response (session : string) (body_text : string) : Response :=
  {| status := 200; statusText := js "OK";
     response_headers :=
       (js "content-type", js "application/json") ::
       match session with
       | EmptyString => []
       | _ => [(js "Mcp-Session-Id", js session)]
       end;
     body := whole (bytes body_text) |}.


(** A 500 response with a short body and a session header. *)
Definition error_response : Response :=
  {| status := 500; statusText := js "Internal Server Error";
     response_headers := [(js "content-type", js "text/plain");
                          (js "mcp-session-id", js "S1")];
     body := whole (bytes "oops") |}.

Definition initialize_result : string :=
  "{'jsonrpc':'2.0','id':1,'result':{'protocolVersion':'2025-06-18'}}".

(** A network that always answers with the same response, and one whose
    third [fetch] fails. *)
Definition always (response : Response) : Network := fun _ => Resolved response.

Definition flaky (response : Response) : Network :=
  fun sent =>
    if (length sent =? 3)%nat
    then Rejected {| origin := Platform; message := js "fetch failed" |}
    else Resolved response.

Definition three_calls : list call :=
  [Initialize; ListTools None; CallTool (js "get_weather") (JObj [])].

(** ** The configuration resolver (config.js) and the router's helpers

    What stands between an HTTP request to the proxy and the client:
    [getServerConfig] and [listServers] of config.js, and of the router
    [getSessionId], [createClient], the [try] blocks of the tools route
    and the execute route around the calls of the client, and the [catch]
    blocks that turn a failure into a reply.  [servers] is the
    [mcpServers] object of the configuration file as [JSON.parse] built
    it, given by its members. *)

(** What a synchronous function comes to: the value it returns, or the
    message of the [Error] it throws. *)
Inductive Thrown (A : Type) :=
  | Returns (a : A)
  | Throws (error_message : jsstring).
Arguments Returns {A} a.
Arguments Throws {A} error_message.

(** The reply a [catch] block of the router sends:
    [res.status(...).json({ error, message })]. *)
Record Reply := {
  reply_status : N;
  reply_error : jsstring;
  reply_message : jsstring
}.

Definition authentication_failed : Reply :=
  {| reply_status := 401; reply_error := js "Authentication failed";
     reply_message := js "Invalid or missing authorization credentials" |}.

(** The names every object inherits from [Object.prototype]: each is bound
    to a function, [__proto__] to the prototype itself. *)
Definition Object_prototype : list jsstring :=
  js <$> ["constructor"; "__defineGetter__"; "__defineSetter__";
          "hasOwnProperty"; "__lookupGetter__"; "__lookupSetter__";
          "isPrototypeOf"; "propertyIsEnumerable"; "toString"; "valueOf";
          "__proto__"; "toLocaleString"]%string.

(** [servers[serverName]]: an own property, else an inherited one, else
    [undefined]. *)
Inductive Property :=
  | Own (v : value)
  | Inherited
  | Undefined.

Definition Get (members : list (jsstring * value)) (k : jsstring) : Property :=
  match own_property members k with
  | Some v => Own v
  | None => if bool_decide (k ∈ Object_prototype) then Inherited else Undefined
  end.

(** [!x], where [x] may be [undefined]. *)
Definition falsy (x : option value) : bool :=
  match x with
  | Some v => negb (truthy v)
  | None => true
  end.

(** [getServerConfig(serverName, servers)].  An inherited property is a
    function or the prototype object: truthy, and without a [type]. *)
Definition getServerConfig (serverName : jsstring)
    (servers : list (jsstring * value)) : Thrown value :=
  match Get servers serverName with
  | Undefined =>
      Throws (js "Server '" ++ serverName ++ js "' not found in configuration")
  | Inherited =>
      Throws (js "Server '" ++ serverName ++ js "' is not an HTTP server")
  | Own config =>
      if negb (truthy config) then
        Throws (js "Server '" ++ serverName ++ js "' not found in configuration")
      else if negb (strict_equals_string (member config (js "type")) (js "http")) then
        Throws (js "Server '" ++ serverName ++ js "' is not an HTTP server")
      else if falsy (member config (js "url")) then
        Throws (js "Server '" ++ serverName ++ js "' missing URL configuration")
      else Returns config
  end.

(** A canonical array index: the decimal digits, without a leading zero,
    of an integer below 2^32 - 1. *)
Definition index_value (k : jsstring) : N :=
  fold_left (fun acc d => acc * 10 + (d - 0x30)) k 0.

Definition is_array_index (k : jsstring) : bool :=
  match k with
  | [] => false
  | c :: k' =>
      forallb Json.is_digit k && (negb (c =? 0x30) || bool_decide (k' = [])) &&
      (index_value k <? 2 ^ 32 - 1)
  end.

Definition index_le (a b : jsstring) : Prop := index_value a <= index_value b.

#[export] Instance index_le_dec : RelDecision index_le :=
  fun a b => decide (index_value a <= index_value b).

(** The keys of [members] in the order of their first occurrence. *)
Definition first_occurrences (members : list (jsstring * value)) : list jsstring :=
  reverse (remove_dups (reverse members.*1)).

(** [Object.keys(servers)]: the array indices in ascending order, then the
    other keys in the order in which the object received them. *)
Definition Object_keys (members : list (jsstring * value)) : list jsstring :=
  let keys := first_occurrences members in
  merge_sort index_le (filter is_array_index keys) ++
  filter (fun k => negb (is_array_index k)) keys.

(** One element of the array [listServers] returns. *)
Record ServerEntry := {
  entry_name : jsstring;
  entry_url : option value;
  entry_type : option value
}.

(** [listServers(servers)]: one entry per key, in the order of
    [Object.keys].  Reading [url] of an entry that is [null] throws the
    engine's [TypeError]; so would reading it of [undefined], which no key
    of the object gives. *)
Fixpoint listServers_map `{Runtime} (servers : list (jsstring * value))
    (names : list jsstring) : Thrown (list ServerEntry) :=
  match names with
  | [] => Returns []
  | name :: names' =>
      match Get servers name with
      | Own JNull | Undefined =>
          Throws (exception_message (NullPropertyRead (js "url")))
      | Own config =>
          match listServers_map servers names' with
          | Returns entries =>
              Returns ({| entry_name := name;
                          entry_url := member config (js "url");
                          entry_type := member config (js "type") |} :: entries)
          | Throws m => Throws m
          end
      | Inherited =>
          match listServers_map servers names' with
          | Returns entries =>
              Returns ({| entry_name := name; entry_url := None;
                          entry_type := None |} :: entries)
          | Throws m => Throws m
          end
      end
  end.

Definition listServers `{Runtime} (servers : list (jsstring * value))
  : Thrown (list ServerEntry) :=
  listServers_map servers (Object_keys servers).

(** The route [GET /api/list-servers]: the entries and their count, or the
    reply of its [catch] block. *)
Definition list_servers_route `{Runtime} (servers : list (jsstring * value))
  : (list ServerEntry * nat) + Reply :=
  match listServers servers with
  | Returns entries => inl (entries, length entries)
  | Throws m =>
      inr {| reply_status := 500; reply_error := js "Failed to list servers";
             reply_message := m |}
  end.

(** [getSessionId(req)]: [req.query.sessionId || req.get('Mcp-Session-Id')
    || null], for a query parameter given at most once. *)
Definition getSessionId (query_sessionId header : option jsstring) : option jsstring :=
  match truthy_string query_sessionId with
  | Some sid => Some sid
  | None => truthy_string header
  end.

(** The members of an object whose values are all strings. *)
Definition string_members (members : list (jsstring * value))
  : option (list (jsstring * jsstring)) :=
  mapM (fun m => match m.2 with JStr s => Some (m.1, s) | _ => None end) members.

(** The configuration the constructor reads, when it has the documented
    shape: [url] a string, [headers] absent, falsy or an object of
    strings.  A later duplicate of a header replaces the earlier one. *)
Definition endpoint (config : value) : option ServerConfig :=
  match member config (js "url") with
  | Some (JStr u) =>
      match member config (js "headers") with
      | None => Some {| config_url := u; config_headers := None |}
      | Some (JObj members) =>
          hs ← string_members members;
          Some {| config_url := u;
                  config_headers :=
                    Some (foldl (fun m h => <[ h.1 := h.2 ]> m) ∅ hs) |}
      | Some h =>
          if truthy h then None
          else Some {| config_url := u; config_headers := None |}
      end
  | _ => None
  end.

(** [createClient(serverName, sessionId = null)]; [None] for a
    configuration outside the documented shape. *)
Definition createClient (servers : list (jsstring * value))
    (serverName : jsstring) (sessionId : option jsstring)
  : Thrown (option MCPClient) :=
  match getServerConfig serverName servers with
  | Returns config =>
      Returns ((fun serverConfig => constructor serverConfig sessionId)
                 <$> endpoint config)
  | Throws m => Throws m
  end.

(** The [catch] block of [POST /api/mcp/:serverName/initialize]: the
    console line and the reply, from [error.message]. *)
Definition initialize_catch (serverName error_message : jsstring)
  : LogEntry * Reply :=
  ({| log_level := LevelError;
      log_args := [Text (js "Initialize error for " ++ serverName ++ js ":");
                   Text error_message] |},
   if includes error_message (js "not found") then
     {| reply_status := 404; reply_error := js "Server not found";
        reply_message := error_message |}
   else if includes error_message (js "401") || includes error_message (js "403") then
     authentication_failed
   else
     {| reply_status := 500; reply_error := js "Initialization failed";
        reply_message := error_message |}).

(** The [catch] block of [GET /api/mcp/:serverName/tools]. *)
Definition tools_catch (serverName error_message : jsstring)
  : LogEntry * Reply :=
  ({| log_level := LevelError;
      log_args := [Text (js "List tools error for " ++ serverName ++ js ":");
                   Text error_message] |},
   if includes error_message (js "not found") then
     {| reply_status := 404; reply_error := js "Server not found";
        reply_message := error_message |}
   else if includes error_message (js "401") || includes error_message (js "403") then
     authentication_failed
   else
     {| reply_status := 500; reply_error := js "Failed to list tools";
        reply_message := error_message |}).

(** The [catch] block of
    [POST /api/mcp/:serverName/tools/:toolName/execute]. *)
Definition execute_catch (serverName toolName error_message : jsstring)
  : LogEntry * Reply :=
  ({| log_level := LevelError;
      log_args := [Text (js "Execute tool error for " ++ serverName ++ js "/"
                         ++ toolName ++ js ":");
                   Text error_message] |},
   if includes error_message (js "not found") && includes error_message (js "Server")
   then
     {| reply_status := 404; reply_error := js "Server not found";
        reply_message := error_message |}
   else if includes error_message (js "Tool") || includes error_message (js "not found")
   then
     {| reply_status := 404; reply_error := js "Tool not found";
        reply_message := js "Tool '" ++ toolName ++ js "' not found on server '"
                         ++ serverName ++ js "'" |}
   else if includes error_message (js "401") || includes error_message (js "403") then
     authentication_failed
   else
     {| reply_status := 500; reply_error := js "Tool execution failed";
        reply_message := error_message |}).

(** [init === 'true'], for a query parameter given at most once. *)
Definition shouldInitialize (init : option jsstring) : bool :=
  strict_equals_string (JStr <$> init) (js "true").

(** The lines the tools route and the execute route share, from
    [let newSessionId = sessionId] to the end of [if (shouldInitialize)]. *)
Definition newSessionId `{Runtime} (net : Network) (init sessionId : option jsstring)
  : M (option jsstring) :=
  if shouldInitialize init then
    bind (initialize net) (fun initResult => ret initResult.2)
  else ret sessionId.

(** The [try] block of [GET /api/mcp/:serverName/tools] once the client
    exists: the session id it hands to [res.set('Mcp-Session-Id', ...)],
    if any, and the result it hands to [res.json]. *)
Definition tools_try `{Runtime} (net : Network) (init sessionId cursor : option jsstring)
  : M (option jsstring * option value) :=
  bind (newSessionId net init sessionId) (fun relayed =>
  bind (listTools net cursor) (fun result =>
  ret (truthy_string relayed, result))).

(** The [try] block of
    [POST /api/mcp/:serverName/tools/:toolName/execute], likewise. *)
Definition execute_try `{Runtime} (net : Network) (init sessionId : option jsstring)
    (toolName : jsstring) (args : value)
  : M (option jsstring * option value) :=
  bind (newSessionId net init sessionId) (fun relayed =>
  bind (callTool net toolName args) (fun result =>
  ret (truthy_string relayed, result))).

(** [handleSSEResponse(response)] from [response.body] as [fetch] gives
    it: a stream, or [null] on a response without a body (status 204, 205
    or 304).  On [null], [response.body.getReader()] throws inside the
    executor of the promise and the promise is rejected with the
    [TypeError]. *)
Definition handleSSEResponse_body `{Runtime} (body : option Body)
  : Outcome value * list (list Byte.byte) :=
  match body with
  | Some stream => handleSSEResponse stream
  | None => (Rejected (engine_error (NullPropertyRead (js "getReader"))), [])
  end.



(** The decoder is between two characters, or inside a sequence that can
    only end in a code point of two bytes or more. *)
Definition sequence_ok (d : Utf8.decoder) : bool :=
  (Utf8.bytes_needed d =? 0) ||
  ((0x80 <=? Utf8.lower_boundary d) && (Utf8.upper_boundary d <=? 0xBF) &&
   ((1 <=? Utf8.code_point d) ||
    ((0x90 <=? Utf8.lower_boundary d) &&
     (Utf8.bytes_seen d + 1 <? Utf8.bytes_needed d)))).

(** A message of this client: sent by POST to the configured URL as
    JSON-RPC 2.0, under the fixed and the configured headers and at most a
    session id besides. *)
Definition sent_by (c : MCPClient) (r : HttpRequest) : Prop :=
  req_url r = url c /\ req_method r = js "POST" /\
  jsonrpc (req_body r) = js "2.0" /\
  (req_headers r = base_headers c \/
   exists sid, req_headers r = <[ js "Mcp-Session-Id" := sid ]> (base_headers c)).

(** The stream [two_results] without its progress notification. *)
Definition two_results_only : list Byte.byte :=
  sse_line "event: message" ++ sse_line "" ++
  sse_line "data: {'jsonrpc':'2.0','id':2,'result':{'ok':false}}" ++ sse_line "" ++
  sse_line "data: {'jsonrpc':'2.0','id':2,'result':{'ok':true}}" ++ sse_line "".

(** A first result, and a final one whose line the server did not end. *)
Definition first_result : list Byte.byte :=
  sse_line "data: {'jsonrpc':'2.0','id':2,'result':{'ok':false}}" ++ sse_line "".

Definition unterminated_result : list Byte.byte :=
  bytes "data: {'jsonrpc':'2.0','id':2,'result':{'ok':true}}".

(** A read that fails after two results have arrived. *)
Definition interrupted : Body :=
  {| chunks := [two_results];
     final := StreamError {| origin := Platform; message := js "terminated" |} |}.


(** A JSON body without a [jsonrpc] member, under an id nobody asked for. *)
Definition bare_result : string := "{'id':99,'result':{'ok':true}}".


Definition tool_error : string :=
  "{'jsonrpc':'2.0','id':1,'error':{'code':-32602,'message':'Tool not found: get_weather'}}".

(** The entry of an HTTP server in the configuration. *)
Definition weather_config : value :=
  JObj [(js "type", JStr (js "http"));
        (js "url", JStr (js "https://mcp.example/rpc"));
        (js "headers", JObj [(js "Authorization", JStr (js "Bearer token"))])].

(** A configuration with this server and a server of another type. *)
Definition sample_servers : list (jsstring * value) :=
  [(js "weather", weather_config);
   (js "local", JObj [(js "type", JStr (js "stdio")); (js "command", JStr (js "mcp"))])].

(** An error whose message is a number, and one whose message cannot be
    converted to a string, followed by a result. *)
Definition numeric_message : list Byte.byte :=
  sse_line "data: {'jsonrpc':'2.0','id':2,'error':{'message':42}}" ++ sse_line "".

Definition unconvertible_message : list Byte.byte :=
  sse_line "data: {'jsonrpc':'2.0','id':2,'error':{'message':{'toString':1}}}" ++
  sse_line "" ++
  sse_line "data: {'jsonrpc':'2.0','id':2,'result':{'ok':true}}" ++ sse_line "".

(** The error of [tool_error], delivered as an event of a stream. *)
Definition tool_error_stream : Response :=
  {| status := 200; statusText := js "OK";
     response_headers := [(js "content-type", js "text/event-stream")];
     body := whole (sse_line ("data: " ++ tool_error)%string ++ sse_line "") |}.

(** A 200 response that opens the session S1. *)
Definition session_response : Response := json_response "S1" initialize_result.

(** * Properties *)

(** ** [JSON.parse]: the fuel is enough *)

Lemma skip_ws_length s : (length (Json.skip_ws s) <= length s)%nat.
Proof.
  induction s as [|c s IH]; simpl; [lia|].
  destruct (Json.is_ws c); simpl; lia.
Qed.

Lemma string_chars_shorter s :
  forall acc str r, Json.string_chars s acc = Some (str, r) -> (length r < length s)%nat.
Proof.
  induction s as [s IH] using (induction_ltof1 _ (@length N)). unfold ltof in IH.
  intros acc str r. destruct s as [|c s]; [done|]. simpl.
  destruct (c =? 34); [intros [= _ <-]; simpl; lia|].
  destruct (c <? 32); [done|].
  destruct (c =? 92).
  - destruct s as [|e s]; [done|].
    repeat match goal with
    | |- context [if ?b then _ else _] => destruct b
    end; try done;
    try (intros Hs; apply IH in Hs; simpl in *; lia).
    destruct s as [|h1 [|h2 [|h3 [|h4 s]]]]; try done.
    destruct (Json.hex4 h1 h2 h3 h4); [|done].
    intros Hs; apply IH in Hs; simpl in *; lia.
  - intros Hs; apply IH in Hs; simpl in *; lia.
Qed.

Lemma digits_length s ds r : Json.digits s = (ds, r) -> (length r <= length s)%nat.
Proof.
  revert ds r. induction s as [|c s IH]; intros ds r; simpl.
  - intros [= _ <-]. simpl. lia.
  - destruct (Json.is_digit c).
    + destruct (Json.digits s) as [ds' r'] eqn:Hd. intros [= _ <-].
      specialize (IH _ _ eq_refl). lia.
    + intros [= _ <-]. simpl. lia.
Qed.

Lemma number_shorter s v r : Json.number s = Some (v, r) -> (length r < length s)%nat.
Proof.
  unfold Json.number.
  destruct s as [|c s]; [done|].
  set (p := if c =? 45 then (true, s) else (false, c :: s)).
  assert (Hp : (length p.2 <= length (c :: s))%nat)
    by (unfold p; destruct (c =? 45); simpl; lia).
  destruct p as [neg s1]. simpl in Hp.
  destruct (Json.int_part s1) as [[ip s2]|] eqn:Hi; [|done]. simpl.
  destruct (Json.frac_part s2) as [[fp s3]|] eqn:Hf; [|done]. simpl.
  destruct (Json.exp_part s3) as [[ex s4]|] eqn:He; [|done]. simpl.
  intros [= _ <-].
  assert (length s2 < length s1)%nat.
  { unfold Json.int_part in Hi. destruct s1 as [|d s1]; [done|].
    destruct (d =? 48); [injection Hi as _ <-; simpl; lia|].
    destruct (Json.is_digit d) eqn:Hd; [|done].
    injection Hi as Hi. simpl in Hi. rewrite Hd in Hi.
    destruct (Json.digits s1) as [ds' r'] eqn:Hds. injection Hi as _ <-.
    apply digits_length in Hds. simpl. lia. }
  assert (length s3 <= length s2)%nat.
  { unfold Json.frac_part in Hf. destruct s2 as [|d s2]; [by injection Hf as _ <-|].
    destruct (d =? 46).
    - destruct (Json.digits s2) as [[|x ds'] r'] eqn:Hds; [done|].
      injection Hf as _ <-. apply digits_length in Hds. simpl. lia.
    - by injection Hf as _ <-. }
  assert (length s4 <= length s3)%nat.
  { unfold Json.exp_part in He. destruct s3 as [|d s3]; [by injection He as _ <-|].
    destruct ((d =? 101) || (d =? 69)).
    - set (q := match s3 with
                | sg :: t => if sg =? 45 then (true, t) else if sg =? 43 then (false, t) else (false, s3)
                | [] => (false, s3) end) in He.
      assert (Hq : (length q.2 <= length s3)%nat).
      { unfold q. destruct s3 as [|sg t]; simpl; [lia|].
        destruct (sg =? 45); simpl; [lia|]. destruct (sg =? 43); simpl; lia. }
      destruct q as [neg' s'']. simpl in Hq.
      destruct (Json.digits s'') as [[|x ds'] r'] eqn:Hds; [done|].
      injection He as _ <-. apply digits_length in Hds. simpl. lia.
    - by injection He as _ <-. }
  lia.
Qed.

Lemma literal_shorter word v s v' r :
  word <> [] -> Json.literal word v s = Some (v', r) -> (length r < length s)%nat.
Proof.
  intros Hw. unfold Json.literal. destruct (startsWith s word) eqn:Hs; [|done].
  intros [= _ <-]. rewrite length_drop.
  destruct word; [done|]. destruct s; [done|]. simpl. lia.
Qed.

Lemma parse_shorter fuel :
  (forall s v r, Json.parse_value fuel s = Some (v, r) -> (length r < length s)%nat) /\
  (forall s acc v r, Json.parse_elements fuel s acc = Some (v, r) -> (length r < length s)%nat) /\
  (forall s acc v r, Json.parse_members fuel s acc = Some (v, r) -> (length r < length s)%nat).
Proof.
  induction fuel as [|fuel (IHv & IHe & IHm)]; [by repeat split|].
  repeat split.
  - intros s v r. simpl. pose proof (skip_ws_length s) as Hws.
    destruct (Json.skip_ws s) as [|c t]; [done|]. simpl in Hws.
    destruct (c =? 123).
    { pose proof (skip_ws_length t) as Hws'.
      destruct (Json.skip_ws t) as [|c' t']; [done|]. simpl in Hws'.
      destruct (c' =? 125); [intros [= _ <-]; lia|].
      intros Hm. apply IHm in Hm. lia. }
    destruct (c =? 91).
    { pose proof (skip_ws_length t) as Hws'.
      destruct (Json.skip_ws t) as [|c' t']; [done|]. simpl in Hws'.
      destruct (c' =? 93); [intros [= _ <-]; lia|].
      intros Hm. apply IHe in Hm. lia. }
    destruct (c =? 34).
    { destruct (Json.string_chars t []) as [[str r']|] eqn:Hs; [|done].
      simpl. intros [= _ <-]. apply string_chars_shorter in Hs. lia. }
    destruct (c =? 116); [intros Hl; apply literal_shorter in Hl; [simpl in *; lia|done]|].
    destruct (c =? 102); [intros Hl; apply literal_shorter in Hl; [simpl in *; lia|done]|].
    destruct (c =? 110); [intros Hl; apply literal_shorter in Hl; [simpl in *; lia|done]|].
    intros Hn. apply number_shorter in Hn. simpl in *. lia.
  - intros s acc v r. simpl.
    destruct (Json.parse_value fuel s) as [[v' r']|] eqn:Hv; [|done]. simpl.
    apply IHv in Hv. pose proof (skip_ws_length r') as Hws.
    destruct (Json.skip_ws r') as [|c t]; [done|]. simpl in Hws.
    destruct (c =? 44); [intros He; apply IHe in He; lia|].
    destruct (c =? 93); [intros [= _ <-]; lia|done].
  - intros s acc v r. simpl. pose proof (skip_ws_length s) as Hws.
    destruct (Json.skip_ws s) as [|c t]; [done|]. simpl in Hws.
    destruct (c =? 34); [|done].
    destruct (Json.string_chars t []) as [[k r1]|] eqn:Hs; [|done]. simpl.
    apply string_chars_shorter in Hs. pose proof (skip_ws_length r1) as Hws1.
    destruct (Json.skip_ws r1) as [|c1 r2]; [done|]. simpl in Hws1.
    destruct (c1 =? 58); [|done].
    destruct (Json.parse_value fuel r2) as [[v' r3]|] eqn:Hv; [|done]. simpl.
    apply IHv in Hv. pose proof (skip_ws_length r3) as Hws3.
    destruct (Json.skip_ws r3) as [|c3 r4]; [done|]. simpl in Hws3.
    destruct (c3 =? 44); [intros He; apply IHm in He; lia|].
    destruct (c3 =? 125); [intros [= _ <-]; lia|done].
Qed.

(** Beyond twice the length of the text (plus one for a value, plus two
    inside an array or object) more fuel changes nothing. *)
Lemma parse_fuel n :
  (forall s f f', (length s <= n)%nat -> (2 * n + 1 <= f)%nat -> (2 * n + 1 <= f')%nat ->
     Json.parse_value f s = Json.parse_value f' s) /\
  (forall s acc f f', (length s <= n)%nat -> (2 * n + 2 <= f)%nat -> (2 * n + 2 <= f')%nat ->
     Json.parse_elements f s acc = Json.parse_elements f' s acc) /\
  (forall s acc f f', (length s <= n)%nat -> (2 * n + 2 <= f)%nat -> (2 * n + 2 <= f')%nat ->
     Json.parse_members f s acc = Json.parse_members f' s acc).
Proof.
  induction n as [n IH] using lt_wf_ind.
  assert (HV : forall s f f', (length s <= n)%nat -> (2 * n + 1 <= f)%nat ->
     (2 * n + 1 <= f')%nat -> Json.parse_value f s = Json.parse_value f' s).
  { intros s f f' Hs Hf Hf'.
    destruct f as [|f]; [lia|]. destruct f' as [|f']; [lia|]. simpl.
    pose proof (skip_ws_length s) as Hws.
    destruct (Json.skip_ws s) as [|c t]; [done|]. simpl in Hws.
    destruct n as [|n]; [lia|].
    destruct (IH n ltac:(lia)) as (_ & IHe & IHm).
    destruct (c =? 123).
    { destruct (Json.skip_ws t) as [|c' t']; [done|].
      destruct (c' =? 125); [done|]. apply IHm; lia. }
    destruct (c =? 91).
    { destruct (Json.skip_ws t) as [|c' t']; [done|].
      destruct (c' =? 93); [done|]. apply IHe; lia. }
    done. }
  split; [exact HV|]. split.
  - intros s acc f f' Hs Hf Hf'.
    destruct f as [|f]; [lia|]. destruct f' as [|f']; [lia|]. simpl.
    rewrite (HV s f f') by lia.
    destruct (Json.parse_value f' s) as [[v r]|] eqn:Hv; [|done]. simpl.
    apply (proj1 (parse_shorter f')) in Hv.
    pose proof (skip_ws_length r) as Hws.
    destruct (Json.skip_ws r) as [|c t]; [done|]. simpl in Hws.
    destruct (c =? 44); [|done].
    destruct n as [|n]; [lia|].
    destruct (IH n ltac:(lia)) as (_ & IHe & _). apply IHe; lia.
  - intros s acc f f' Hs Hf Hf'.
    destruct f as [|f]; [lia|]. destruct f' as [|f']; [lia|]. simpl.
    pose proof (skip_ws_length s) as Hws.
    destruct (Json.skip_ws s) as [|c t]; [done|]. simpl in Hws.
    destruct (c =? 34); [|done].
    destruct (Json.string_chars t []) as [[k r1]|] eqn:Hs1; [|done]. simpl.
    apply string_chars_shorter in Hs1. pose proof (skip_ws_length r1) as Hws1.
    destruct (Json.skip_ws r1) as [|c1 r2]; [done|]. simpl in Hws1.
    destruct (c1 =? 58); [|done].
    destruct n as [|n]; [lia|].
    destruct (IH n ltac:(lia)) as (IHv & _ & IHm).
    rewrite (IHv r2 f f') by lia.
    destruct (Json.parse_value f' r2) as [[v r3]|] eqn:Hv; [|done]. simpl.
    apply (proj1 (parse_shorter f')) in Hv.
    pose proof (skip_ws_length r3) as Hws3.
    destruct (Json.skip_ws r3) as [|c3 r4]; [done|]. simpl in Hws3.
    destruct (c3 =? 44); [|done]. apply IHm; lia.
Qed.

Lemma JSON_parse_fuel text fuel :
  (2 * length text + 2 <= fuel)%nat ->
  Json.parse_value fuel text = Json.parse_value (2 * length text + 2) text.
Proof.
  intros Hf. apply (proj1 (parse_fuel (length text))); lia.
Qed.

(** ** Text and lines *)

Lemma decode_app td a b :
  decode td (a ++ b) =
  let '(td1, out1) := decode td a in
  let '(td2, out2) := decode td1 b in
  (td2, out1 ++ out2).
Proof.
  revert td. induction a as [|x a IH]; intros td; simpl.
  - destruct (decode td b); reflexivity.
  - destruct (decode_byte td x) as [td1 o1].
    rewrite IH. destruct (decode td1 a) as [td2 o2].
    destruct (decode td2 b) as [td3 o3]. by rewrite app_assoc.
Qed.

Lemma pop_split_cons c s :
  pop (split (c :: s)) =
  let '(ls, r) := pop (split s) in
  if c =? LF then ([] :: ls, r)
  else match ls with
       | [] => ([], c :: r)
       | l :: ls' => ((c :: l) :: ls', r)
       end.
Proof.
  unfold split, pop. simpl split_LF.
  destruct (split_LF s) as [p ps]. destruct (c =? LF).
  - reflexivity.
  - destruct ps; reflexivity.
Qed.

Lemma pop_split_app a b :
  pop (split (a ++ b)) =
  (complete_lines a ++ complete_lines (partial_line a ++ b),
   partial_line (partial_line a ++ b)).
Proof.
  unfold complete_lines, partial_line.
  induction a as [|c a IH].
  - change (pop (split [])) with (@nil jsstring, @nil N).
    reflexivity.
  - rewrite <- app_comm_cons, !pop_split_cons, IH.
    destruct (pop (split a)) as [ls r]. cbn [fst snd].
    destruct (c =? LF) eqn:Hc.
    + reflexivity.
    + destruct ls as [|l ls].
      * cbn [fst snd app]. rewrite pop_split_cons, Hc.
        by destruct (pop (split (r ++ b))) as [[|l2 ls2] r2].
      * reflexivity.
Qed.

Lemma complete_lines_app a b :
  complete_lines (a ++ b) = complete_lines a ++ complete_lines (partial_line a ++ b).
Proof. unfold complete_lines at 1. by rewrite pop_split_app. Qed.

Lemma partial_line_app a b :
  partial_line (a ++ b) = partial_line (partial_line a ++ b).
Proof. unfold partial_line at 1. by rewrite pop_split_app. Qed.

(** The carry-over buffer never holds a completed line. *)
Lemma pop_split_partial s :
  pop (split (partial_line s)) = ([], partial_line s).
Proof.
  unfold partial_line. induction s as [|c s IH]; [reflexivity|].
  rewrite pop_split_cons. destruct (pop (split s)) as [ls r]. simpl in IH.
  destruct (c =? LF) eqn:Hc; [exact IH|].
  destruct ls; [|exact IH].
  simpl snd. by rewrite pop_split_cons, IH, Hc.
Qed.

Section Aggregation.
Context `{Runtime}.

Lemma for_lines_app result ls1 ls2 :
  for_lines result (ls1 ++ ls2) =
  match for_lines result ls1 with
  | Continue result' => for_lines result' ls2
  | Reject e => Reject e
  end.
Proof.
  revert result. induction ls1 as [|l ls1 IH]; intros result; [reflexivity|].
  simpl. destruct (processLine result l); [apply IH | reflexivity].
Qed.

Lemma processChunk_cons decoder buffer result value unread final :
  processChunk decoder buffer result (value :: unread) final =
  let '(decoder', text) := decode decoder value in
  match for_lines result (complete_lines (buffer ++ text)) with
  | Reject e => (Rejected e, unread)
  | Continue result' =>
      processChunk decoder' (partial_line (buffer ++ text)) result' unread final
  end.
Proof. simpl. by destruct (decode decoder value). Qed.

(** The chunked loop computes the reduction of the whole text: what the
    promise settles with depends on the bytes and on how the stream ends,
    not on where the reads cut it. *)
Lemma processChunk_aggregate decoder buffer result unread final :
  pop (split buffer) = ([], buffer) ->
  (processChunk decoder buffer result unread final).1 =
  aggregate_from result final
    (complete_lines (buffer ++ (decode decoder (concat unread)).2)).
Proof.
  revert decoder buffer result.
  induction unread as [|value unread IH]; intros decoder buffer result Hbuf.
  - simpl. rewrite app_nil_r. unfold complete_lines. rewrite Hbuf.
    reflexivity.
  - simpl concat. rewrite decode_app, processChunk_cons.
    destruct (decode decoder value) as [decoder' text] eqn:Hd.
    destruct (decode decoder' (concat unread)) as [decoder'' text'] eqn:Hd'.
    cbn [snd]. rewrite app_assoc, (complete_lines_app (buffer ++ text) text').
    unfold aggregate_from. rewrite for_lines_app.
    destruct (for_lines result (complete_lines (buffer ++ text))) as [result'|e].
    + rewrite IH by apply pop_split_partial. by rewrite Hd'.
    + reflexivity.
Qed.

Lemma handleSSEResponse_aggregate body :
  (handleSSEResponse body).1 =
  aggregate (final body) (complete_lines (text_of (concat (chunks body)))).
Proof.
  unfold handleSSEResponse. by rewrite processChunk_aggregate.
Qed.

End Aggregation.

Section Lines.
Context `{Runtime}.

(** One iteration of the loop, read off the envelope of the line. *)
Lemma processLine_envelope result line :
  processLine result line =
  match envelope line with
  | None => Continue result
  | Some env =>
      match error_member env with
      | Some error =>
          match ToString (or_else (member error (js "message"))
                                  (JStr (js "SSE error"))) with
          | Some msg => Reject {| origin := SseEnvelopeError; message := msg |}
          | None => Continue result
          end
      | None =>
          match member env (js "result") with
          | Some r => Continue r
          | None => Continue result
          end
      end
  end.
Proof.
  unfold processLine, envelope, error_member.
  destruct (startsWith line (js "data: ")); [|reflexivity].
  destruct (trim (slice_from 6 line)) as [|c data]; [reflexivity|].
  change (truthy (JStr (c :: data))) with true. cbv iota.
  destruct (JSON_parse (c :: data)) as [parsed|]; [|reflexivity].
  destruct parsed; try reflexivity.
  destruct (strict_equals_string _ _); [|reflexivity].
  destruct (member _ (js "error")) as [error|]; [|reflexivity].
  destruct (truthy error); reflexivity.
Qed.

Lemma ToString_reported fallback error msg :
  reported_message fallback error = Some msg ->
  ToString (or_else (member error (js "message")) (JStr fallback)) = Some msg.
Proof.
  unfold reported_message, or_else.
  destruct (member error (js "message")) as [m|]; [|by intros [= <-]].
  destruct m as [| b | mn ex | [|c s] | |]; simpl; try done;
    try (by intros [= <-]).
  - destruct b; [done | by intros [= <-]].
  - destruct (negb _); [done | by intros [= <-]].
Qed.

Lemma for_lines_no_error result lines :
  forallb no_error lines = true ->
  exists result', for_lines result lines = Continue result'.
Proof.
  revert result. induction lines as [|l lines IH]; intros result Hl.
  - by exists result.
  - simpl in Hl. apply andb_true_iff in Hl as [Hl Hls].
    simpl. rewrite processLine_envelope. unfold no_error in Hl.
    destruct (envelope l) as [env|]; [|by apply IH].
    destruct (error_member env); [done|].
    destruct (member env (js "result")); by apply IH.
Qed.

Lemma for_lines_nothing result lines :
  forallb no_error lines = true ->
  forallb no_result lines = true ->
  for_lines result lines = Continue result.
Proof.
  induction lines as [|l lines IH]; intros He Hr; [done|].
  simpl in He, Hr.
  apply andb_true_iff in He as [He Hes]. apply andb_true_iff in Hr as [Hr Hrs].
  simpl. rewrite processLine_envelope. unfold no_error, no_result in He, Hr.
  destruct (envelope l) as [env|]; [|by apply IH].
  destruct (error_member env); [done|].
  destruct (member env (js "result")); [done | by apply IH].
Qed.

(** The first line that carries a truthy [error] member ends the loop
    when its message converts to a string. *)
Lemma for_lines_first_error result before l after env error msg :
  forallb no_error before = true ->
  envelope l = Some env ->
  error_member env = Some error ->
  ToString (or_else (member error (js "message")) (JStr (js "SSE error"))) = Some msg ->
  for_lines result (before ++ l :: after)
    = Reject {| origin := SseEnvelopeError; message := msg |}.
Proof.
  intros Hbefore Henv Herr Hmsg. rewrite for_lines_app.
  destruct (for_lines_no_error result before Hbefore) as [r ->].
  simpl. by rewrite processLine_envelope, Henv, Herr, Hmsg.
Qed.

(** When the message does not convert, [new Error] throws inside the inner
    [try] and the line counts for nothing. *)
Lemma for_lines_skipped_error result before l after env error :
  envelope l = Some env ->
  error_member env = Some error ->
  ToString (or_else (member error (js "message")) (JStr (js "SSE error"))) = None ->
  for_lines result (before ++ l :: after) = for_lines result (before ++ after).
Proof.
  intros Henv Herr Hmsg. rewrite !for_lines_app.
  destruct (for_lines result before) as [r|e]; [|reflexivity].
  simpl. by rewrite processLine_envelope, Henv, Herr, Hmsg.
Qed.

(** Only an object that has a member named [toString], or an array, can
    fail to convert. *)
Lemma ToString_None x fallback :
  ToString (or_else x (JStr fallback)) = None ->
  exists v,
    x = Some v /\
    ((exists members,
        v = JObj members /\ is_Some (own_property members (js "toString"))) \/
     exists elements, v = JArr elements).
Proof.
  unfold or_else. destruct x as [v|]; [|done].
  destruct (truthy v) eqn:Hv; [|done].
  destruct v as [|b|m e|s|elements|members]; try done.
  - by destruct b.
  - intros _. exists (JArr elements). split; [reflexivity|]. right. by eexists.
  - cbn [ToString]. intros Hs. exists (JObj members). split; [reflexivity|].
    left. exists members. split; [reflexivity|].
    by destruct (own_property members (js "toString")).
Qed.

(** Whatever cuts the stream into reads, the promise settles the same
    way. *)
Lemma handleSSEResponse_chunking body body' :
  concat (chunks body') = concat (chunks body) ->
  final body' = final body ->
  (handleSSEResponse body').1 = (handleSSEResponse body).1.
Proof.
  intros Hc Hf. by rewrite !handleSSEResponse_aggregate, Hc, Hf.
Qed.

(** Once a line has rejected, no later read happens: chunks that follow
    stay with the reader and how the stream would have ended is of no
    account. *)
Lemma processChunk_stops decoder buffer result unread final e more final' :
  pop (split buffer) = ([], buffer) ->
  for_lines result (complete_lines (buffer ++ (decode decoder (concat unread)).2))
    = Reject e ->
  processChunk decoder buffer result (unread ++ more) final' =
  (Rejected e, (processChunk decoder buffer result unread final).2 ++ more).
Proof.
  revert decoder buffer result.
  induction unread as [|value unread IH]; intros decoder buffer result Hbuf Hrej.
  - simpl in Hrej. rewrite app_nil_r in Hrej. unfold complete_lines in Hrej.
    by rewrite Hbuf in Hrej.
  - simpl concat in Hrej. rewrite decode_app in Hrej.
    rewrite <- app_comm_cons, !processChunk_cons.
    destruct (decode decoder value) as [decoder' text] eqn:Hd.
    destruct (decode decoder' (concat unread)) as [decoder'' text'] eqn:Hd'.
    cbn [snd] in Hrej.
    rewrite app_assoc, (complete_lines_app (buffer ++ text) text'),
      for_lines_app in Hrej.
    destruct (for_lines result (complete_lines (buffer ++ text))) as [result'|e1].
    + apply IH; [apply pop_split_partial | by rewrite Hd'].
    + by injection Hrej as ->.
Qed.

End Lines.

(** ** The SSE aggregation: results, errors, empty streams *)

Section AggregationClaims.
Context `{Runtime}.

(** C1 (amended).  Take a stream that ends, in which no completed line is
    an envelope with a truthy [error] member, and let [l] be the last
    completed line that is an envelope with a [result] member, its value
    [v] being truthy.  Then [handleSSEResponse] resolves with [v], and so
    it does on every other way of cutting the same bytes into chunks. *)
Theorem C1_last_result_any_chunking (body : Body) before l after env v :
  final body = StreamEnd ->
  complete_lines (text_of (concat (chunks body))) = before ++ l :: after ->
  forallb no_error (before ++ l :: after) = true ->
  envelope l = Some env ->
  member env (js "result") = Some v ->
  truthy v = true ->
  forallb no_result after = true ->
  forall body',
    concat (chunks body') = concat (chunks body) ->
    final body' = final body ->
    (handleSSEResponse body').1 = Resolved v.
Proof.
  intros Hend Hlines Herr Henv Hres Hv Hafter body' Hbytes Hfinal.
  rewrite handleSSEResponse_aggregate, Hbytes, Hfinal, Hlines, Hend.
  rewrite forallb_app in Herr. apply andb_true_iff in Herr as [Hbefore Hrest].
  simpl in Hrest. apply andb_true_iff in Hrest as [Hl Hafter'].
  unfold aggregate, aggregate_from. rewrite for_lines_app.
  destruct (for_lines_no_error JNull before Hbefore) as [r ->].
  simpl for_lines. rewrite processLine_envelope, Henv.
  unfold no_error in Hl. rewrite Henv in Hl.
  destruct (error_member env); [done|]. rewrite Hres.
  rewrite (for_lines_nothing v after Hafter' Hafter).
  simpl. by rewrite Hv.
Qed.

(** C2 (amended).  Let [l] be the first completed line that is an envelope
    with a truthy [error] member.  When the message of that error
    converts to a string, which can fail only for an object with a member
    named [toString] and for an array, [handleSSEResponse] rejects with a
    ProtocolError that carries it, whatever result an
    earlier line carried and whatever follows [l], and chunks after the
    one that completed [l] are never read.  The message is the server's
    [error.message] when that is a non-empty string, [SSE error] when
    there is none or a falsy one, and the conversion of the message (the
    digits of a number, [true], [[object Object]], the joined elements of
    an array) otherwise.  When the message does not convert, [new Error]
    throws inside the inner [try]: the line counts for nothing, its
    [result] member included, and the stream settles as it would without
    the line. *)
Theorem C2_first_error_rejects (body : Body) before l after env error :
  complete_lines (text_of (concat (chunks body))) = before ++ l :: after ->
  forallb no_error before = true ->
  envelope l = Some env ->
  error_member env = Some error ->
  (forall msg,
     ToString (or_else (member error (js "message")) (JStr (js "SSE error")))
       = Some msg ->
     (handleSSEResponse body).1
       = Rejected {| origin := SseEnvelopeError; message := msg |} /\
     classify {| origin := SseEnvelopeError; message := msg |} = ProtocolError /\
     forall more final',
       handleSSEResponse {| chunks := chunks body ++ more; final := final' |}
       = (Rejected {| origin := SseEnvelopeError; message := msg |},
          (handleSSEResponse body).2 ++ more)) /\
  (forall msg,
     reported_message (js "SSE error") error = Some msg ->
     ToString (or_else (member error (js "message")) (JStr (js "SSE error")))
       = Some msg) /\
  (ToString (or_else (member error (js "message")) (JStr (js "SSE error"))) = None ->
   (exists x,
      member error (js "message") = Some x /\
      ((exists members,
          x = JObj members /\ is_Some (own_property members (js "toString"))) \/
       exists elements, x = JArr elements)) /\
   forall body',
     complete_lines (text_of (concat (chunks body'))) = before ++ after ->
     final body' = final body ->
     (handleSSEResponse body).1 = (handleSSEResponse body').1).
Proof.
  intros Hlines Hbefore Henv Herr. split; [|split].
  - intros msg Hmsg.
    pose proof (for_lines_first_error JNull before l after env error msg
                  Hbefore Henv Herr Hmsg) as Hrej.
    split; [|split; [reflexivity|]].
    + rewrite handleSSEResponse_aggregate, Hlines.
      unfold aggregate, aggregate_from. by rewrite Hrej.
    + intros more final'. unfold handleSSEResponse. cbn [chunks final].
      apply processChunk_stops; [reflexivity|].
      simpl app. fold (text_of (concat (chunks body))). by rewrite Hlines.
  - intros msg. apply ToString_reported.
  - intros Hmsg. split; [by apply ToString_None in Hmsg|].
    intros body' Hlines' Hfinal.
    rewrite !handleSSEResponse_aggregate, Hlines, Hlines', Hfinal.
    unfold aggregate, aggregate_from.
    by rewrite (for_lines_skipped_error JNull before l after env error Henv Herr Hmsg).
Qed.

(** C9.  A stream that ends with no completed line being an envelope with
    a [result] member, nor one with a truthy [error] member (no JSON-RPC
    events at all, or only lines that are not JSON or not JSON-RPC), is
    rejected with the TransportError [No data received from SSE stream]. *)
Theorem C9_nothing_retained_no_data (body : Body) :
  final body = StreamEnd ->
  forallb no_result (complete_lines (text_of (concat (chunks body)))) = true ->
  forallb no_error (complete_lines (text_of (concat (chunks body)))) = true ->
  (handleSSEResponse body).1
    = Rejected {| origin := SseNoData;
                  message := js "No data received from SSE stream" |} /\
  classify {| origin := SseNoData;
              message := js "No data received from SSE stream" |}
    = TransportError.
Proof.
  intros Hend Hres Herr. split; [|reflexivity].
  rewrite handleSSEResponse_aggregate, Hend.
  unfold aggregate, aggregate_from.
  by rewrite (for_lines_nothing JNull _ Herr Hres).
Qed.

End AggregationClaims.

Ltac evaluate := vm_compute; reflexivity.

(** The progress event, the first result and the final one, whole or cut
    after 100 bytes: the final result. *)
Lemma C1_last_result_witness :
  (handleSSEResponse (cut 100 two_results)).1 = Resolved ok_true.
Proof.
  eapply (C1_last_result_any_chunking (whole two_results)
            [text "event: message";
             text "data: {'jsonrpc':'2.0','method':'notifications/progress'}";
             [];
             text "data: {'jsonrpc':'2.0','id':2,'result':{'ok':false}}";
             []]
            (text "data: {'jsonrpc':'2.0','id':2,'result':{'ok':true}}")
            [[]]);
    evaluate.
Defined.

(** A read that ends between the two bytes of a character: the decoder
    keeps the first byte for the next read. *)
Example split_inside_a_character :
  (handleSSEResponse (cut (S (length accented_prefix)) accented)).1
    = Resolved (JStr (js "caf" ++ [0xE9])) /\
  (handleSSEResponse (whole accented)).1 = Resolved (JStr (js "caf" ++ [0xE9])).
Proof. split; evaluate. Qed.

(** C1 as stated fails: an error event before the last result event ends
    the aggregation, so the stream "error, then result" is rejected with
    the error although its last event carries a result and nothing after
    it carries an error. *)
Lemma C1_counterexample :
  (handleSSEResponse (whole error_then_result)).1
    = Rejected {| origin := SseEnvelopeError; message := js "boom" |} /\
  ~ (forall (body : Body) before l after env v,
       final body = StreamEnd ->
       complete_lines (text_of (concat (chunks body))) = before ++ l :: after ->
       envelope l = Some env ->
       member env (js "result") = Some v ->
       forallb no_result after = true ->
       forallb no_error_key after = true ->
       (handleSSEResponse body).1 = Resolved v).
Proof.
  split; [evaluate|]. intros claim.
  specialize (claim (whole error_then_result)
    [text "data: {'jsonrpc':'2.0','id':2,'error':{'message':'boom'}}"; []]
    (text "data: {'jsonrpc':'2.0','id':2,'result':{'ok':true}}")
    [[]]
    (JObj [(js "jsonrpc", JStr (js "2.0")); (js "id", JNum 2 0);
           (js "result", ok_true)])
    ok_true).
  vm_compute in claim.
  specialize (claim eq_refl eq_refl eq_refl eq_refl eq_refl eq_refl).
  discriminate claim.
Qed.

(** The specification's example, cut inside the second event. *)
Lemma C2_first_error_witness :
  (handleSSEResponse (cut 80 result_then_error)).1
    = Rejected {| origin := SseEnvelopeError; message := js "boom" |} /\
  classify {| origin := SseEnvelopeError; message := js "boom" |} = ProtocolError /\
  forall more final',
    handleSSEResponse {| chunks := chunks (cut 80 result_then_error) ++ more;
                         final := final' |}
    = (Rejected {| origin := SseEnvelopeError; message := js "boom" |},
       (handleSSEResponse (cut 80 result_then_error)).2 ++ more).
Proof.
  refine (proj1 (C2_first_error_rejects (cut 80 result_then_error)
                   [text "data: {'jsonrpc':'2.0','id':2,'result':{'ok':true}}"; []]
                   (text "data: {'jsonrpc':'2.0','id':2,'error':{'message':'boom'}}")
                   [[]]
                   (JObj [(js "jsonrpc", JStr (js "2.0")); (js "id", JNum 2 0);
                          (js "error", JObj [(js "message", JStr (js "boom"))])])
                   (JObj [(js "message", JStr (js "boom"))])
                   _ _ _ _)
                (js "boom") _);
    evaluate.
Defined.

(** A message that is a number is reported by its digits; one that cannot
    be converted leaves the line without effect, and the result that
    follows is returned. *)
Example error_messages_that_are_not_strings :
  (handleSSEResponse (whole numeric_message)).1
    = Rejected {| origin := SseEnvelopeError; message := js "42" |} /\
  (handleSSEResponse (whole unconvertible_message)).1 = Resolved ok_true.
Proof. split; evaluate. Qed.

(** C2 as stated fails: an envelope whose [error] member is [null] is not
    an error to [if (parsed.error)], and its result is returned. *)
Lemma C2_counterexample :
  (handleSSEResponse (whole null_error)).1 = Resolved ok_true /\
  ~ (forall (body : Body) l env,
       In l (complete_lines (text_of (concat (chunks body)))) ->
       envelope l = Some env ->
       is_Some (member env (js "error")) ->
       exists e, (handleSSEResponse body).1 = Rejected e /\
                 classify e = ProtocolError).
Proof.
  split; [evaluate|]. intros claim.
  destruct (claim (whole null_error)
    (text "data: {'jsonrpc':'2.0','id':1,'result':{'ok':true},'error':null}")
    (JObj [(js "jsonrpc", JStr (js "2.0")); (js "id", JNum 1 0);
           (js "result", ok_true); (js "error", JNull)]))
    as (e & He & _).
  - vm_compute. by left.
  - evaluate.
  - vm_compute. by eexists.
  - vm_compute in He. discriminate He.
Qed.

Lemma C9_nothing_retained_witness :
  (handleSSEResponse (cut 10 no_envelopes)).1
    = Rejected {| origin := SseNoData;
                  message := js "No data received from SSE stream" |} /\
  classify {| origin := SseNoData;
              message := js "No data received from SSE stream" |}
    = TransportError.
Proof. apply (C9_nothing_retained_no_data (cut 10 no_envelopes)); evaluate. Defined.

(** ** The client: what one call does *)

Ltac run_M :=
  unfold sendRequest, initialize, listTools, callTool, when,
    bind, ret, throw, try_catch, await, get_this,
    console_write, fetch, getNextRequestId, set_sessionId, post;
  cbn [fst snd this wire console url headers sessionId requestId].

Ltac world_simpl :=
  cbn [fst snd this wire console url headers sessionId requestId
       req_headers req_body id].

Section Calls.
Context `{Runtime}.
Variable net : Network.

Lemma throw_http_error_run {A} response w :
  throw_http_error (A:=A) response w =
  (Rejected {| origin := HttpStatus; message := status_line response |},
   {| this := this w; wire := wire w;
      console := console w ++ http_error_log response |}).
Proof.
  unfold throw_http_error, http_error_log, status_line.
  run_M. destruct (Response_text response) as [[|c t]|e]; simpl;
    by rewrite <- ?app_assoc.
Qed.

Lemma json_result_run v w :
  exists logs,
    json_result v w =
    (json_outcome v,
     {| this := this w; wire := wire w; console := console w ++ logs |}).
Proof.
  destruct w as [c sent out].
  unfold json_result, json_outcome. run_M.
  destruct v; cbn [member]; try (exists []; by rewrite app_nil_r).
  destruct (own_property members (js "error")) as [error|];
    [|exists []; by rewrite app_nil_r].
  destruct (truthy error); [|exists []; by rewrite app_nil_r].
  world_simpl.
  destruct (ToString _); by eexists.
Qed.

Lemma sendNotification_run method params w :
  exists logs,
    sendNotification net method params w =
    (Resolved tt,
     {| this := this w;
        wire := wire w ++ [sendNotification_fetch (this w) method params];
        console := console w ++ logs |}).
Proof.
  unfold sendNotification. run_M. unfold sendNotification_fetch.
  destruct (net _); world_simpl.
  - exists []. by rewrite app_nil_r.
  - by eexists.
Qed.

Ltac step_M :=
  world_simpl;
  match goal with
  | |- context [json_result ?v ?w] =>
      let logs := fresh "logs" in
      let E := fresh "E" in
      destruct (json_result_run v w) as [logs E]; rewrite E; clear E
  | |- context [@throw_http_error ?A ?r ?w] =>
      rewrite (@throw_http_error_run A r w)
  | |- context [sendNotification net ?m ?p ?w] =>
      let logs := fresh "logs" in
      let E := fresh "E" in
      destruct (sendNotification_run m p w) as [logs E]; rewrite E; clear E
  | |- context [if ?b then _ else _] =>
      lazymatch b with
      | context [if _ then _ else _] => fail
      | context [match _ with _ => _ end] => fail
      | _ => destruct b eqn:?
      end
  | |- context [match ?x with _ => _ end] =>
      lazymatch x with
      | context [if _ then _ else _] => fail
      | context [match _ with _ => _ end] => fail
      | _ => destruct x eqn:?
      end
  end.

Lemma sendRequest_run method params w :
  exists logs,
    sendRequest net method params w =
    (match net (wire w ++ [sendRequest_fetch (this w) method params]) with
     | Rejected e => Rejected (request_failed e)
     | Resolved r =>
         match response_outcome r with
         | Rejected e => Rejected (request_failed e)
         | Resolved v => Resolved v
         end
     end,
     {| this := bump (this w);
        wire := wire w ++ [sendRequest_fetch (this w) method params];
        console := console w ++ logs |}).
Proof.
  run_M. unfold response_outcome, sendRequest_fetch, request_headers, bump,
    base_headers.
  repeat step_M; world_simpl; rewrite <- ?app_assoc; by eexists.
Qed.

Lemma initialize_run w :
  exists logs rest,
    initialize net w =
    (match net (wire w ++ [initialize_fetch (this w)]) with
     | Rejected e => Rejected e
     | Resolved r =>
         match response_outcome r with
         | Rejected e => Rejected e
         | Resolved v => Resolved (v, session_after (this w) (Resolved r))
         end
     end,
     {| this :=
          {| url := url (this w); headers := headers (this w);
             sessionId :=
               session_after (this w) (net (wire w ++ [initialize_fetch (this w)]));
             requestId := increment (requestId (this w)) |};
        wire := wire w ++ initialize_fetch (this w) :: rest;
        console := console w ++ logs |}) /\
    request_ids rest = [].
Proof.
  run_M. unfold response_outcome, initialize_fetch, session_after, base_headers.
  repeat step_M; world_simpl; rewrite <- ?app_assoc;
    eexists; eexists; (split; [reflexivity|]); reflexivity.
Qed.

(** A call made by [perform]: one request with the next id goes out,
    followed at most by a notification, and the counter moves on. *)
Lemma perform_run c w :
  exists r rest,
    wire (perform net c w).2 = wire w ++ r :: rest /\
    id (req_body r) = Some (increment (requestId (this w))) /\
    request_ids rest = [] /\
    requestId (this (perform net c w).2) = increment (requestId (this w)) /\
    headers (this (perform net c w).2) = headers (this w) /\
    (is_request_call c = true ->
     rest = [] /\ req_headers r = request_headers (this w) /\
     sessionId (this (perform net c w).2) = sessionId (this w)).
Proof.
  destruct c as [|cursor|toolName args]; unfold perform; cbn [snd].
  - destruct (initialize_run w) as (logs & rest & -> & Hrest).
    exists (initialize_fetch (this w)), rest. by repeat split.
  - unfold listTools.
    destruct (sendRequest_run (js "tools/list")
                (match truthy_string cursor with
                 | Some cursor => JObj [(js "cursor", JStr cursor)]
                 | None => JObj []
                 end) w) as (logs & ->).
    eexists _, []. by repeat split.
  - unfold callTool.
    destruct (sendRequest_run (js "tools/call")
                (JObj [(js "name", JStr toolName); (js "arguments", args)]) w)
      as (logs & ->).
    eexists _, []. by repeat split.
Qed.

Lemma increment_below n : (n < 2 ^ 53)%Z -> increment n = (n + 1)%Z.
Proof.
  intros Hn. unfold increment.
  destruct (Z.ltb_spec n (2 ^ 53)); [reflexivity | lia].
Qed.

Lemma request_ids_app sent sent' :
  request_ids (sent ++ sent') = request_ids sent ++ request_ids sent'.
Proof. apply omap_app. Qed.

Lemma request_ids_cons r sent :
  request_ids (r :: sent) =
  match id (req_body r) with
  | Some i => i :: request_ids sent
  | None => request_ids sent
  end.
Proof. reflexivity. Qed.

Lemma run_request_ids calls w :
  (requestId (this w) + Z.of_nat (length calls) < 2 ^ 53)%Z ->
  request_ids (wire (run net calls w)) =
  request_ids (wire w) ++
  ((fun i => requestId (this w) + Z.of_nat i)%Z <$> seq 1 (length calls)).
Proof.
  revert w. induction calls as [|c calls IH]; intros w Hn.
  - simpl. by rewrite app_nil_r.
  - cbn [run length] in *.
    destruct (perform_run c w) as (r & rest & Hw & Hid & Hrest & Hreq & _).
    rewrite IH, Hw, Hreq by (rewrite Hreq, increment_below; lia).
    rewrite increment_below by lia.
    rewrite request_ids_app, request_ids_cons, Hid, Hrest.
    rewrite <- app_assoc. f_equal. cbn [seq fmap list_fmap app].
    f_equal; [rewrite increment_below; lia|].
    rewrite <- (fmap_S_seq 1), <- list_fmap_compose.
    apply list_fmap_ext. intros _ i _. cbn. lia.
Qed.

(** Calls other than [initialize] leave the session id and the configured
    headers alone, and every request they send has the headers these two
    determine. *)
Lemma run_requests calls w :
  forallb is_request_call calls = true ->
  exists new,
    wire (run net calls w) = wire w ++ new /\
    Forall (fun r => req_headers r = request_headers (this w)) new.
Proof.
  revert w. induction calls as [|c calls IH]; intros w Hc.
  - exists []. by rewrite app_nil_r.
  - cbn [run forallb] in *. apply andb_true_iff in Hc as [Hc Hcs].
    destruct (perform_run c w) as (r & rest & Hw & _ & _ & _ & Hh & Hreq).
    destruct (Hreq Hc) as (-> & Hr & Hs).
    destruct (IH (perform net c w).2 Hcs) as (new & Hnew & Hall).
    exists (r :: new). split.
    + by rewrite Hnew, Hw, <- app_assoc.
    + constructor; [done|].
      eapply Forall_impl; [exact Hall|]. intros r' ->.
      unfold request_headers, base_headers. by rewrite Hs, Hh.
Qed.

Lemma sendRequest_http_error w method params response :
  net (wire w ++ [sendRequest_fetch (this w) method params]) = Resolved response ->
  is_event_stream response = false ->
  ok response = false ->
  exists before,
    sendRequest net method params w =
    (Rejected (request_failed {| origin := HttpStatus;
                                 message := status_line response |}),
     {| this := bump (this w);
        wire := wire w ++ [sendRequest_fetch (this w) method params];
        console := before ++ http_error_log response |}).
Proof.
  intros Hnet Hes Hok.
  unfold sendRequest_fetch, request_headers, base_headers in *.
  run_M. unfold bump, base_headers.
  repeat (world_simpl;
          first [rewrite Hnet | rewrite Hes | rewrite Hok; cbn [negb] | step_M]).
  all: world_simpl; by eexists.
Qed.

Lemma initialize_http_error w response :
  net (wire w ++ [initialize_fetch (this w)]) = Resolved response ->
  is_event_stream response = false ->
  ok response = false ->
  exists before,
    console (initialize net w).2 = before ++ http_error_log response.
Proof.
  intros Hnet Hes Hok.
  unfold initialize_fetch, base_headers in *.
  run_M. unfold base_headers.
  repeat (world_simpl;
          first [rewrite Hnet | rewrite Hes | rewrite Hok; cbn [negb] | step_M]).
  all: world_simpl; by eexists.
Qed.

Lemma http_error_log_body response body_text :
  Response_text response = Resolved body_text ->
  body_text <> [] ->
  In {| log_level := LevelError;
        log_args := [Text (js "[MCP] Error response:");
                     Text (substring0 500 body_text)] |}
     (http_error_log response).
Proof.
  intros Ht Hne. unfold http_error_log. rewrite Ht.
  destruct body_text; [done|]. right. by left.
Qed.

(** [initialize] in full: the outcome, the client it leaves and the
    messages it sends, the notification only after a success. *)
Lemma initialize_run_wire w :
  exists logs,
    initialize net w =
    (match net (wire w ++ [initialize_fetch (this w)]) with
     | Rejected e => Rejected e
     | Resolved r =>
         match response_outcome r with
         | Rejected e => Rejected e
         | Resolved v => Resolved (v, session_after (this w) (Resolved r))
         end
     end,
     {| this :=
          {| url := url (this w); headers := headers (this w);
             sessionId :=
               session_after (this w) (net (wire w ++ [initialize_fetch (this w)]));
             requestId := increment (requestId (this w)) |};
        wire :=
          wire w ++ initialize_fetch (this w) ::
            match net (wire w ++ [initialize_fetch (this w)]) with
            | Rejected _ => []
            | Resolved r =>
                match response_outcome r with
                | Rejected _ => []
                | Resolved _ =>
                    [sendNotification_fetch (this w)
                       (js "notifications/initialized") (JObj [])]
                end
            end;
        console := console w ++ logs |}).
Proof.
  run_M. unfold response_outcome, initialize_fetch, sendNotification_fetch,
    session_after, base_headers.
  repeat step_M; world_simpl; rewrite <- ?app_assoc;
    eexists; reflexivity.
Qed.

Lemma initialize_wire w :
  wire (initialize net w).2 =
  wire w ++ initialize_fetch (this w) ::
    match (initialize net w).1 with
    | Resolved _ =>
        [sendNotification_fetch (this w) (js "notifications/initialized") (JObj [])]
    | Rejected _ => []
    end.
Proof.
  destruct (initialize_run_wire w) as (logs & ->). cbn [fst snd wire].
  destruct (net _) as [r|e]; [|reflexivity].
  by destruct (response_outcome r).
Qed.

Lemma sent_by_request c method params :
  sent_by c (sendRequest_fetch c method params).
Proof.
  unfold sent_by, sendRequest_fetch, request_headers. cbn.
  repeat split. destruct (truthy_string (sessionId c)); eauto.
Qed.

(** A call made by [perform] sends messages of this client only, and
    leaves the URL of the client as it was. *)
Lemma perform_messages c w :
  exists new,
    wire (perform net c w).2 = wire w ++ new /\
    Forall (sent_by (this w)) new /\
    url (this (perform net c w).2) = url (this w).
Proof.
  destruct c as [|cursor|toolName args]; unfold perform; cbn [snd].
  - rewrite initialize_wire.
    destruct (initialize_run_wire w) as (logs & ->). cbn [fst snd this url].
    eexists. split; [reflexivity|]. split; [|reflexivity].
    constructor; [by repeat split; eauto|].
    destruct (match net _ with Resolved _ => _ | Rejected _ => _ end);
      constructor; [by repeat split; eauto | constructor].
  - unfold listTools.
    destruct (sendRequest_run (js "tools/list")
                (match truthy_string cursor with
                 | Some cursor => JObj [(js "cursor", JStr cursor)]
                 | None => JObj []
                 end) w) as (logs & ->).
    eexists. split; [reflexivity|]. split; [|reflexivity].
    constructor; [apply sent_by_request | constructor].
  - unfold callTool.
    destruct (sendRequest_run (js "tools/call")
                (JObj [(js "name", JStr toolName); (js "arguments", args)]) w)
      as (logs & ->).
    eexists. split; [reflexivity|]. split; [|reflexivity].
    constructor; [apply sent_by_request | constructor].
Qed.

End Calls.

(** ** The client: ids, headers, session, failures *)

Section ClientClaims.
Context `{Runtime}.
Variable net : Network.

Lemma truthy_string_idem s S :
  truthy_string s = Some S -> truthy_string (Some S) = Some S.
Proof. destruct s as [[|c s']|]; simpl; intros [= <-]; reflexivity. Qed.

Lemma sorted_seq a n : StronglySorted Z.lt (Z.of_nat <$> seq a n).
Proof.
  revert a. induction n as [|n IH]; intros a; [constructor|].
  cbn [seq fmap list_fmap]. constructor; [apply IH|].
  apply Forall_fmap, Forall_seq. intros i Hi. cbn. lia.
Qed.

(** C4.  A client just constructed, used for any sequence of [initialize],
    [listTools] and [callTool] calls shorter than 2^53 (the range in which
    a JavaScript number counts exactly), sends its requests with the ids
    1, 2, 3, ... in this order, one per call whether the call fails or
    not: the ids strictly increase and none is used twice. *)
Theorem C4_request_ids_increase serverConfig sid (calls : list call) :
  (Z.of_nat (length calls) < 2 ^ 53)%Z ->
  request_ids (wire (run net calls (fresh serverConfig sid)))
    = Z.of_nat <$> seq 1 (length calls) /\
  StronglySorted Z.lt (request_ids (wire (run net calls (fresh serverConfig sid)))) /\
  NoDup (request_ids (wire (run net calls (fresh serverConfig sid)))).
Proof.
  intros Hn.
  assert (Hids : request_ids (wire (run net calls (fresh serverConfig sid)))
                 = Z.of_nat <$> seq 1 (length calls)).
  { rewrite run_request_ids by (cbn; lia). cbn [fresh wire this constructor requestId].
    cbn [request_ids omap app]. apply list_fmap_ext. intros _ i _. lia. }
  rewrite Hids. split; [reflexivity|]. split; [apply sorted_seq|].
  apply NoDup_fmap; [apply Nat2Z.inj'|apply NoDup_seq].
Qed.

(** C3 (amended).  When the response [initialize] receives has a non-empty
    [mcp-session-id] header [S] (whatever the case of its name), the
    client's session id is [S] afterwards and every request a later
    [listTools] or [callTool] sends carries [Mcp-Session-Id: S].  When the
    response has no such header, or an empty one, the session id stays
    what it was: later requests carry the id the client was constructed
    with if it had one, and only the fixed and the configured headers if
    it had none. *)
Theorem C3_session_capture (w : World) (response : Response) (calls : list call) :
  net (wire w ++ [initialize_fetch (this w)]) = Resolved response ->
  forallb is_request_call calls = true ->
  (forall S,
     truthy_string (Headers_get (response_headers response) (js "mcp-session-id"))
       = Some S ->
     sessionId (this (initialize net w).2) = Some S /\
     Forall (fun r => req_headers r !! js "Mcp-Session-Id" = Some S)
       (drop (length (wire (initialize net w).2))
             (wire (run net calls (initialize net w).2)))) /\
  (truthy_string (Headers_get (response_headers response) (js "mcp-session-id"))
     = None ->
   sessionId (this (initialize net w).2) = sessionId (this w) /\
   (forall sid, truthy_string (sessionId (this w)) = Some sid ->
      Forall (fun r => req_headers r !! js "Mcp-Session-Id" = Some sid)
        (drop (length (wire (initialize net w).2))
              (wire (run net calls (initialize net w).2)))) /\
   (truthy_string (sessionId (this w)) = None ->
      Forall (fun r => req_headers r = base_headers (this w))
        (drop (length (wire (initialize net w).2))
              (wire (run net calls (initialize net w).2))))).
Proof.
  intros Hnet Hcalls.
  destruct (run_requests net calls (initialize net w).2 Hcalls) as (new & -> & Hnew).
  rewrite drop_app_length.
  destruct (initialize_run net w) as (logs & rest & Hrun & _).
  rewrite Hrun in *. cbn [snd this sessionId] in *.
  unfold request_headers, base_headers in Hnew.
  cbn [sessionId headers] in Hnew. rewrite Hnet in *. cbn [session_after] in *.
  split.
  - intros S HS. rewrite HS in *. split; [reflexivity|].
    rewrite (truthy_string_idem _ _ HS) in Hnew.
    eapply Forall_impl; [exact Hnew|]. intros r ->. apply lookup_insert_eq.
  - intros HS. rewrite HS in *. split; [reflexivity|]. split.
    + intros sid Hsid. rewrite Hsid in Hnew.
      eapply Forall_impl; [exact Hnew|]. intros r ->. apply lookup_insert_eq.
    + intros Hsid. rewrite Hsid in Hnew. exact Hnew.
Qed.

(** C5 (amended).  A configured header keeps its value in the request
    [initialize] sends, and in a request [sendRequest] sends unless its
    name is [Mcp-Session-Id] and the client holds a session id: so a
    configured [Content-Type] replaces the fixed one, while a captured
    session id replaces a configured [Mcp-Session-Id]. *)
Theorem C5_configured_headers (w : World) k v method params :
  headers (this w) !! k = Some v ->
  (exists r rest,
     wire (initialize net w).2 = wire w ++ r :: rest /\
     req_headers r !! k = Some v) /\
  (exists r,
     wire (sendRequest net method params w).2 = wire w ++ [r] /\
     (k <> js "Mcp-Session-Id" \/ truthy_string (sessionId (this w)) = None ->
      req_headers r !! k = Some v) /\
     (forall sid, truthy_string (sessionId (this w)) = Some sid ->
      req_headers r !! js "Mcp-Session-Id" = Some sid)).
Proof.
  intros Hk.
  assert (Hbase : base_headers (this w) !! k = Some v)
    by (by apply lookup_union_Some_l).
  split.
  - destruct (initialize_run net w) as (logs & rest & -> & _).
    by exists (initialize_fetch (this w)), rest.
  - destruct (sendRequest_run net method params w) as (logs & ->).
    exists (sendRequest_fetch (this w) method params).
    split; [reflexivity|]. cbn [sendRequest_fetch req_headers].
    unfold request_headers. split.
    + intros [Hne | ->]; [|exact Hbase].
      destruct (truthy_string _); [|exact Hbase].
      by rewrite lookup_insert_ne.
    + intros sid ->. apply lookup_insert_eq.
Qed.

(** C6 (amended).  On a response that is not OK and not an event stream,
    [sendRequest] and [initialize] fail with a TransportError whose
    message is the status line, [HTTP <status>: <statusText>] (behind
    [MCP request failed: ] in [sendRequest]).  The body is not carried by
    the error: when its text is not empty, the first 500 code units of it
    are written to the console as an error entry. *)
Theorem C6_status_error (w : World) (response : Response) :
  is_event_stream response = false ->
  ok response = false ->
  (forall method params,
     net (wire w ++ [sendRequest_fetch (this w) method params]) = Resolved response ->
     (sendRequest net method params w).1
       = Rejected {| origin := HttpStatus;
                     message := js "MCP request failed: HTTP "
                                ++ decimal (status response) ++ js ": "
                                ++ statusText response |} /\
     forall body_text,
       Response_text response = Resolved body_text -> body_text <> [] ->
       In {| log_level := LevelError;
             log_args := [Text (js "[MCP] Error response:");
                          Text (substring0 500 body_text)] |}
          (console (sendRequest net method params w).2)) /\
  (net (wire w ++ [initialize_fetch (this w)]) = Resolved response ->
   (initialize net w).1
     = Rejected {| origin := HttpStatus;
                   message := js "HTTP " ++ decimal (status response) ++ js ": "
                              ++ statusText response |} /\
   forall body_text,
     Response_text response = Resolved body_text -> body_text <> [] ->
     In {| log_level := LevelError;
           log_args := [Text (js "[MCP] Error response:");
                        Text (substring0 500 body_text)] |}
        (console (initialize net w).2)) /\
  classify {| origin := HttpStatus; message := status_line response |}
    = TransportError.
Proof.
  intros Hes Hok. split; [|split; [|reflexivity]].
  - intros method params Hnet.
    destruct (sendRequest_http_error net w method params response Hnet Hes Hok)
      as (before & ->). cbn [fst snd console]. split; [reflexivity|].
    intros body_text Ht Hne. apply in_or_app. right.
    by apply http_error_log_body.
  - intros Hnet. split.
    + destruct (initialize_run net w) as (logs & rest & -> & _).
      cbn [fst]. rewrite Hnet. unfold response_outcome.
      by rewrite Hes, Hok.
    + destruct (initialize_http_error net w response Hnet Hes Hok) as (before & ->).
      intros body_text Ht Hne. apply in_or_app. right.
      by apply http_error_log_body.
Qed.


(** C10.  [initialize] stores the session id of the response before it
    looks at the body.  When the response has a non-empty
    [mcp-session-id] header [S], the client holds session id [S] after the
    call whatever its outcome; and the call does fail, with the session id
    so changed, when the response is not OK, and when its JSON body has a
    truthy [error] member. *)
Theorem C10_session_kept_on_failure (w : World) (response : Response) S :
  net (wire w ++ [initialize_fetch (this w)]) = Resolved response ->
  truthy_string (Headers_get (response_headers response) (js "mcp-session-id"))
    = Some S ->
  sessionId (this (initialize net w).2) = Some S /\
  (is_event_stream response = false -> ok response = false ->
   (initialize net w).1
     = Rejected {| origin := HttpStatus; message := status_line response |}) /\
  (is_event_stream response = false -> ok response = true ->
   forall v error,
     Response_json response = Resolved v ->
     error_member v = Some error ->
     exists e, (initialize net w).1 = Rejected e).
Proof.
  intros Hnet HS.
  destruct (initialize_run net w) as (logs & rest & -> & _).
  cbn [fst snd this sessionId]. rewrite Hnet. cbn [session_after].
  rewrite HS. split; [reflexivity|]. unfold response_outcome. split.
  - by intros -> ->.
  - intros -> -> v error -> Herr. cbn [negb]. unfold json_outcome.
    unfold error_member in Herr.
    destruct v; try done. cbn [member] in *.
    destruct (own_property members (js "error")) as [error'|]; [|done].
    destruct (truthy error'); [|done].
    destruct (ToString _); by eexists.
Qed.

(** C8.  On the stream whose only event carries [result: null] the
    aggregation does not return the null: the candidate the loop retains
    is the same [null] the variable started from, the end of the stream
    takes it for no result, and the promise is rejected.  The JSON
    transport of [sendRequest] does return a null result. *)
Theorem C8_null_result_rejected :
  (handleSSEResponse (whole null_result)).1
    = Rejected {| origin := SseNoData;
                  message := js "No data received from SSE stream" |} /\
  for_lines JNull (complete_lines (text_of null_result)) = Continue JNull /\
  (listTools (always (json_response "" "{'jsonrpc':'2.0','id':1,'result':null}"))
     None (fresh sample_config None)).1
    = Resolved (Some JNull).
Proof.
  split; [evaluate|]. split; [evaluate|].
  unfold listTools. cbn [truthy_string].
  destruct (sendRequest_run
              (always (json_response "" "{'jsonrpc':'2.0','id':1,'result':null}"))
              (js "tools/list") (JObj []) (fresh sample_config None))
    as (logs & ->).
  evaluate.
Qed.

End ClientClaims.

(** ** The client at sample inputs *)

(** Three calls, the second of which fails in [fetch] (the third on the
    wire, after the notification): ids 1, 2, 3. *)
Lemma C4_request_ids_witness :
  request_ids (wire (run (flaky (json_response "" initialize_result)) three_calls
                         (fresh sample_config None)))
    = [1; 2; 3]%Z.
Proof.
  exact (proj1 (C4_request_ids_increase
                  (flaky (json_response "" initialize_result))
                  sample_config None three_calls ltac:(vm_compute; reflexivity))).
Defined.

(** The server answers [initialize] with [Mcp-Session-Id: S1]; the two
    calls that follow carry it. *)
Lemma C3_session_capture_witness :
  sessionId (this (initialize (always (json_response "S1" initialize_result))
                              (fresh sample_config None)).2)
    = Some (js "S1") /\
  Forall (fun r => req_headers r !! js "Mcp-Session-Id" = Some (js "S1"))
    (drop (length (wire (initialize (always (json_response "S1" initialize_result))
                                    (fresh sample_config None)).2))
          (wire (run (always (json_response "S1" initialize_result))
                     [ListTools None; CallTool (js "get_weather") (JObj [])]
                     (initialize (always (json_response "S1" initialize_result))
                                 (fresh sample_config None)).2))).
Proof.
  apply (proj1 (C3_session_capture
                  (always (json_response "S1" initialize_result))
                  (fresh sample_config None)
                  (json_response "S1" initialize_result)
                  [ListTools None; CallTool (js "get_weather") (JObj [])]
                  eq_refl eq_refl) (js "S1")).
  evaluate.
Defined.

(** C3 as stated fails: a client constructed with a session id, as the
    router constructs it from the caller's header, keeps that id when the
    response to [initialize] has no session header, and goes on sending
    it. *)
Lemma C3_counterexample :
  sessionId (this (initialize (always (json_response "" initialize_result))
                              (fresh sample_config (Some (js "old")))).2)
    = Some (js "old") /\
  (fun r => req_headers r !! js "Mcp-Session-Id")
    <$> drop 2 (wire (run (always (json_response "" initialize_result))
                          [Initialize; ListTools None]
                          (fresh sample_config (Some (js "old")))))
    = [Some (js "old")] /\
  ~ (forall (net : Network) w response,
       net (wire w ++ [initialize_fetch (this w)]) = Resolved response ->
       Headers_get (response_headers response) (js "mcp-session-id") = None ->
       sessionId (this (initialize net w).2) = None).
Proof.
  split; [evaluate|]. split; [evaluate|]. intros claim.
  specialize (claim (always (json_response "" initialize_result))
                    (fresh sample_config (Some (js "old")))
                    (json_response "" initialize_result) eq_refl eq_refl).
  vm_compute in claim. discriminate claim.
Qed.

(** A configured [Content-Type] is the one sent. *)
Lemma C5_configured_headers_witness :
  exists r,
    wire (sendRequest (always (json_response "" initialize_result))
            (js "tools/list") (JObj []) (fresh contested_config None)).2
      = wire (fresh contested_config None) ++ [r] /\
    (js "Content-Type" <> js "Mcp-Session-Id" \/
     truthy_string (sessionId (this (fresh contested_config None))) = None ->
     req_headers r !! js "Content-Type"
       = Some (js "application/json; charset=utf-8")) /\
    (forall sid,
       truthy_string (sessionId (this (fresh contested_config None))) = Some sid ->
       req_headers r !! js "Mcp-Session-Id" = Some sid).
Proof.
  apply (C5_configured_headers (always (json_response "" initialize_result))
           (fresh contested_config None) (js "Content-Type")
           (js "application/json; charset=utf-8") (js "tools/list") (JObj [])).
  evaluate.
Defined.

(** C5 as stated fails: with a session id in the client, the session
    header of a request is that id and not the configured value. *)
Lemma C5_counterexample :
  (fun r => req_headers r !! js "Mcp-Session-Id")
    <$> wire (sendRequest (always (json_response "" initialize_result))
                (js "tools/list") (JObj [])
                (fresh contested_config (Some (js "captured")))).2
    = [Some (js "captured")] /\
  ~ (forall (net : Network) w k v method params,
       headers (this w) !! k = Some v ->
       k = js "Content-Type" \/ k = js "Mcp-Session-Id" ->
       Forall (fun r => req_headers r !! k = Some v)
         (drop (length (wire w)) (wire (sendRequest net method params w).2))).
Proof.
  split; [evaluate|]. intros claim.
  specialize (claim (always (json_response "" initialize_result))
                    (fresh contested_config (Some (js "captured")))
                    (js "Mcp-Session-Id") (js "configured")
                    (js "tools/list") (JObj [])
                    ltac:(vm_compute; reflexivity) (or_intror eq_refl)).
  apply Forall_inv in claim. vm_compute in claim. discriminate claim.
Qed.

(** A 500 response with the body [oops]. *)
Lemma C6_status_error_witness :
  (sendRequest (always error_response) (js "tools/list") (JObj [])
     (fresh sample_config None)).1
    = Rejected {| origin := HttpStatus;
                  message := js "MCP request failed: HTTP 500: Internal Server Error" |} /\
  In {| log_level := LevelError;
        log_args := [Text (js "[MCP] Error response:"); Text (js "oops")] |}
     (console (sendRequest (always error_response) (js "tools/list") (JObj [])
                 (fresh sample_config None)).2).
Proof.
  destruct (proj1 (C6_status_error (always error_response)
                     (fresh sample_config None) error_response eq_refl eq_refl)
              (js "tools/list") (JObj []) eq_refl) as [Hfail Hlog].
  split; [exact Hfail|].
  apply (Hlog (js "oops")); [evaluate | discriminate].
Defined.

(** C6 as stated fails: the error of a failed status carries the status
    line and nothing of the body. *)
Lemma C6_counterexample :
  (sendRequest (always error_response) (js "tools/list") (JObj [])
     (fresh sample_config None)).1
    = Rejected {| origin := HttpStatus;
                  message := js "MCP request failed: HTTP 500: Internal Server Error" |} /\
  ~ (forall (net : Network) w response method params e body_text,
       is_event_stream response = false ->
       ok response = false ->
       net (wire w ++ [sendRequest_fetch (this w) method params]) = Resolved response ->
       (sendRequest net method params w).1 = Rejected e ->
       Response_text response = Resolved body_text ->
       body_text <> [] ->
       includes (message e) (substring0 500 body_text) = true).
Proof.
  split; [evaluate|]. intros claim.
  specialize (claim (always error_response) (fresh sample_config None)
                    error_response (js "tools/list") (JObj []) _ (js "oops")
                    eq_refl eq_refl eq_refl ltac:(vm_compute; reflexivity)
                    ltac:(vm_compute; reflexivity) ltac:(discriminate)).
  vm_compute in claim. discriminate claim.
Qed.


(** A 500 response with a session header: the call fails and the session
    id is that of the header. *)
Lemma C10_session_kept_witness :
  sessionId (this (initialize (always error_response)
                              (fresh sample_config None)).2)
    = Some (js "S1") /\
  (initialize (always error_response) (fresh sample_config None)).1
    = Rejected {| origin := HttpStatus;
                  message := js "HTTP 500: Internal Server Error" |}.
Proof.
  destruct (C10_session_kept_on_failure (always error_response)
              (fresh sample_config None) error_response (js "S1")
              eq_refl eq_refl) as (Hsession & Hstatus & _).
  split; [exact Hsession | exact (Hstatus eq_refl eq_refl)].
Defined.

(** * Further properties *)

(** ** The decoder never invents a line feed *)

Lemma below_256 (P : N -> bool) :
  forallb P (N.of_nat <$> seq 0 256) = true -> forall b, b < 256 -> P b = true.
Proof.
  intros HP b Hb. rewrite forallb_forall in HP. apply HP.
  apply list_elem_of_In, list_elem_of_fmap. exists (N.to_nat b).
  split; [lia|]. apply elem_of_seq. lia.
Qed.

Lemma lead_sequence_ok b :
  b < 256 ->
  sequence_ok (Utf8.lead b).1 = true /\
  Forall (fun cp => cp = b \/ cp = Utf8.REPLACEMENT) (Utf8.lead b).2.
Proof.
  intros Hb.
  pose proof (below_256
    (fun b => sequence_ok (Utf8.lead b).1 &&
              forallb (fun cp => (cp =? b) || (cp =? Utf8.REPLACEMENT)) (Utf8.lead b).2)
    eq_refl b Hb) as Hl.
  cbv beta in Hl. apply andb_true_iff in Hl as [Hok Hout].
  split; [exact Hok|]. apply Forall_forall. intros cp Hcp.
  rewrite forallb_forall in Hout. apply list_elem_of_In, Hout in Hcp.
  apply orb_true_iff in Hcp as [Hcp|Hcp]; apply N.eqb_eq in Hcp; auto.
Qed.

Lemma continuation_nonzero b :
  b < 256 -> 0x90 <= b -> b <= 0xBF -> N.land b 0x3F <> 0.
Proof.
  intros Hb Hlo Hhi.
  pose proof (below_256
    (fun b => negb ((0x90 <=? b) && (b <=? 0xBF)) || negb (N.land b 0x3F =? 0))
    eq_refl b Hb) as Hl.
  cbv beta in Hl.
  apply N.leb_le in Hlo, Hhi. rewrite Hlo, Hhi in Hl. simpl in Hl.
  apply negb_true_iff, N.eqb_neq in Hl. exact Hl.
Qed.

(** One byte through the handler: the invariant is kept, and a byte other
    than 0x0A yields no code point U+000A (an overlong encoding of it is
    refused). *)
Lemma handler_sequence_ok d b :
  sequence_ok d = true -> b < 256 ->
  sequence_ok (Utf8.handler d b).1 = true /\
  (b <> LF -> Forall (fun cp => cp <> LF) (Utf8.handler d b).2).
Proof.
  intros Hd Hb. destruct (lead_sequence_ok b Hb) as [Hlead Hout].
  assert (Hout' : b <> LF -> Forall (fun cp => cp <> LF) (Utf8.lead b).2).
  { intros Hne. eapply Forall_impl; [exact Hout|]. intros cp [-> | ->]; [done|].
    by vm_compute. }
  unfold Utf8.handler.
  destruct (Utf8.bytes_needed d =? 0) eqn:Hneeded; [by split|].
  destruct ((b <? Utf8.lower_boundary d) || (Utf8.upper_boundary d <? b)) eqn:Hrange.
  { destruct (Utf8.lead b) as [d' out]. cbn [fst snd] in *. split; [done|].
    intros Hne. constructor; [by vm_compute | by apply Hout']. }
  apply orb_false_iff in Hrange as [Hlo Hhi].
  apply N.ltb_ge in Hlo, Hhi.
  unfold sequence_ok in Hd. rewrite Hneeded in Hd. cbn [orb] in Hd.
  apply andb_true_iff in Hd as [Hbounds Hcp].
  apply andb_true_iff in Hbounds as [Hl Hu].
  apply N.leb_le in Hl, Hu.
  assert (Hnz : N.lor (N.shiftl (Utf8.code_point d) 6) (N.land b 0x3F) = 0 ->
                Utf8.code_point d = 0).
  { intros Hz. apply N.lor_eq_0_iff in Hz as [Hz _].
    by apply N.shiftl_eq_0_iff in Hz. }
  destruct (Utf8.bytes_seen d + 1 =? Utf8.bytes_needed d) eqn:Hlast; cbn [fst snd].
  - split; [reflexivity|]. intros _. constructor; [|constructor].
    intros Hten. apply N.eqb_eq in Hlast.
    apply orb_true_iff in Hcp as [Hcp|Hcp].
    + apply N.leb_le in Hcp.
      assert (Hs : N.shiftr (N.lor (N.shiftl (Utf8.code_point d) 6) (N.land b 0x3F)) 6 = 0)
        by (by rewrite Hten).
      rewrite N.shiftr_lor, N.shiftr_shiftl_l, N.sub_diag, N.shiftl_0_r in Hs by lia.
      apply N.lor_eq_0_iff in Hs as [Hs _]. lia.
    + apply andb_true_iff in Hcp as [_ Hcp]. apply N.ltb_lt in Hcp. lia.
  - split; [|intros _; constructor].
    unfold sequence_ok. cbn [Utf8.bytes_needed Utf8.lower_boundary Utf8.upper_boundary
                             Utf8.code_point Utf8.bytes_seen].
    rewrite Hneeded. cbn [orb]. apply andb_true_iff. split; [reflexivity|].
    apply orb_true_iff. left. apply N.leb_le.
    destruct (N.eq_dec (N.lor (N.shiftl (Utf8.code_point d) 6) (N.land b 0x3F)) 0)
      as [Hz|Hz]; [|lia].
    pose proof (Hnz Hz) as Hcp0.
    apply N.lor_eq_0_iff in Hz as [_ Hz].
    apply orb_true_iff in Hcp as [Hcp|Hcp].
    + apply N.leb_le in Hcp. lia.
    + apply andb_true_iff in Hcp as [Hcp _]. apply N.leb_le in Hcp.
      exfalso. apply (continuation_nonzero b); [done | lia | lia | done].
Qed.

Lemma serialize_no_LF bom cps :
  Forall (fun cp => cp <> LF) cps -> LF ∉ (serialize bom cps).2.
Proof.
  intros Hcps. revert bom. induction Hcps as [|cp cps Hcp _ IH]; intros bom.
  - simpl. apply not_elem_of_nil.
  - assert (Hu : LF ∉ Utf8.utf16 cp).
    { unfold Utf8.utf16. destruct (cp <? 0x10000).
      - intros Hin. apply list_elem_of_singleton in Hin. done.
      - intros Hin. apply elem_of_cons in Hin as [Hin|Hin]; [unfold LF in Hin; lia|].
        apply list_elem_of_singleton in Hin. unfold LF in Hin. lia. }
    simpl. destruct bom.
    + specialize (IH true). destruct (serialize true cps) as [bom' out].
      cbn [snd] in *. rewrite elem_of_app. tauto.
    + destruct (cp =? 0xFEFF); [apply IH|].
      specialize (IH true). destruct (serialize true cps) as [bom' out].
      cbn [snd] in *. rewrite elem_of_app. tauto.
Qed.

(** Bytes without 0x0A decode to text without a line feed, whatever the
    state an earlier read left the decoder in. *)
Lemma decode_no_LF td value :
  sequence_ok (utf8 td) = true ->
  sequence_ok (utf8 (decode td value).1) = true /\
  (Byte.x0a ∉ value -> LF ∉ (decode td value).2).
Proof.
  revert td. induction value as [|b value IH]; intros td Htd.
  - simpl. split; [done|]. intros _. apply not_elem_of_nil.
  - simpl. unfold decode_byte.
    assert (Hb : Byte.to_N b < 256) by (pose proof (Byte.to_N_bounded b); lia).
    destruct (handler_sequence_ok (utf8 td) (Byte.to_N b) Htd Hb) as [Hok Hout].
    destruct (Utf8.handler (utf8 td) (Byte.to_N b)) as [d cps]. cbn [fst snd] in *.
    pose proof (serialize_no_LF (bom_seen td) cps) as Hser.
    destruct (serialize (bom_seen td) cps) as [bom out]. cbn [snd] in *.
    destruct (IH {| utf8 := d; bom_seen := bom |} Hok) as [Hok' Hout'].
    destruct (decode {| utf8 := d; bom_seen := bom |} value) as [td2 out2].
    cbn [fst snd] in *. split; [done|].
    intros Hne. apply not_elem_of_cons in Hne as [Hne Hne'].
    rewrite elem_of_app. intros [Hin|Hin].
    + apply Hser; [|done]. apply Hout. intros Hten. apply Hne.
      assert (Hsome : Some b = Some Byte.x0a)
        by (rewrite <- (Byte.of_to_N b), Hten; reflexivity).
      by injection Hsome.
    + by apply Hout'.
Qed.

Lemma pop_split_no_LF s : LF ∉ s -> pop (split s) = ([], s).
Proof.
  induction s as [|c s IH]; intros Hs; [reflexivity|].
  apply not_elem_of_cons in Hs as [Hc Hs].
  rewrite pop_split_cons, IH by done.
  destruct (N.eqb_spec c LF); [congruence | reflexivity].
Qed.

Lemma no_LF_pop_split s : pop (split s) = ([], s) -> LF ∉ s.
Proof.
  induction s as [|c s IH]; intros Hs; [apply not_elem_of_nil|].
  rewrite pop_split_cons in Hs. destruct (pop (split s)) as [ls r].
  destruct (N.eqb_spec c LF) as [Hc|Hc]; [done|].
  destruct ls; [|done]. injection Hs as ->.
  apply not_elem_of_cons. split; [congruence | by apply IH].
Qed.

Lemma complete_lines_tail a t :
  LF ∉ t -> complete_lines (a ++ t) = complete_lines a.
Proof.
  intros Ht. rewrite complete_lines_app.
  unfold complete_lines at 2. rewrite pop_split_no_LF.
  - apply app_nil_r.
  - rewrite elem_of_app. intros [Hin|Hin]; [|done].
    by apply (no_LF_pop_split _ (pop_split_partial a)).
Qed.

(** ** The SSE aggregation: where an outcome comes from *)

Section Streams.
Context `{Runtime}.

Lemma for_lines_result result lines result' :
  for_lines result lines = Continue result' ->
  result' = result \/
  exists l env,
    l ∈ lines /\ envelope l = Some env /\ error_member env = None /\
    member env (js "result") = Some result'.
Proof.
  revert result. induction lines as [|l lines IH]; intros result; simpl.
  - intros [= <-]. by left.
  - rewrite processLine_envelope. intros Hfor.
    assert (Hlater : forall r, for_lines r lines = Continue result' ->
              r = result \/
              (exists env, envelope l = Some env /\ error_member env = None /\
                           member env (js "result") = Some r) ->
              result' = result \/
              exists l' env,
                l' ∈ l :: lines /\ envelope l' = Some env /\ error_member env = None /\
                member env (js "result") = Some result').
    { intros r Hr Hfrom. destruct (IH r Hr) as [-> | (l' & env & Hin & Hrest)].
      - destruct Hfrom as [-> | (env & Henv)]; [by left|].
        right. exists l, env. split; [by left | done].
      - right. exists l', env. split; [by right | done]. }
    destruct (envelope l) as [env|] eqn:Henv; [|by apply (Hlater result); [|left]].
    destruct (error_member env) as [error|] eqn:Herr.
    + destruct (ToString _); [done|]. by apply (Hlater result); [|left].
    + destruct (member env (js "result")) as [r|] eqn:Hr.
      * apply (Hlater r); [done|]. right. by exists env.
      * by apply (Hlater result); [|left].
Qed.

Lemma for_lines_reject result lines e :
  for_lines result lines = Reject e ->
  exists l env error,
    l ∈ lines /\ envelope l = Some env /\ error_member env = Some error /\
    origin e = SseEnvelopeError /\
    ToString (or_else (member error (js "message")) (JStr (js "SSE error")))
      = Some (message e).
Proof.
  revert result. induction lines as [|l lines IH]; intros result; simpl; [done|].
  rewrite processLine_envelope. intros Hfor.
  assert (Hlater : forall r, for_lines r lines = Reject e ->
            exists l' env error,
              l' ∈ l :: lines /\ envelope l' = Some env /\
              error_member env = Some error /\ origin e = SseEnvelopeError /\
              ToString (or_else (member error (js "message")) (JStr (js "SSE error")))
                = Some (message e)).
  { intros r Hr. destruct (IH r Hr) as (l' & env & error & Hin & Hrest).
    exists l', env, error. split; [by right | done]. }
  destruct (envelope l) as [env|] eqn:Henv; [|by apply (Hlater result)].
  destruct (error_member env) as [error|] eqn:Herr.
  - destruct (ToString _) as [msg|] eqn:Hmsg; [|by apply (Hlater result)].
    injection Hfor as <-. exists l, env, error. split; [by left | done].
  - destruct (member env (js "result")) as [r|]; by eapply Hlater.
Qed.

(** X1.  Whatever [handleSSEResponse] resolves with is truthy and is the
    [result] member of a JSON-RPC 2.0 envelope that a completed [data: ]
    line of the stream carried, an envelope without a truthy [error]
    member; and the stream has ended.  It never makes up a value, and never
    resolves with null, false, zero or the empty string. *)
Theorem resolved_value_was_sent (body : Body) v :
  (handleSSEResponse body).1 = Resolved v ->
  final body = StreamEnd /\ truthy v = true /\
  exists l env,
    l ∈ complete_lines (text_of (concat (chunks body))) /\
    envelope l = Some env /\ error_member env = None /\
    member env (js "result") = Some v.
Proof.
  rewrite handleSSEResponse_aggregate. unfold aggregate, aggregate_from.
  destruct (for_lines JNull _) as [r|e] eqn:Hfor; [|done].
  cbn [processChunk fst]. destruct (final body); [|done].
  destruct (truthy r) eqn:Hr; [|done]. intros [= ->].
  split; [reflexivity|]. split; [exact Hr|].
  destruct (for_lines_result _ _ _ Hfor) as [-> | Hfrom]; [done | exact Hfrom].
Qed.

(** X2.  A completed line that is not an envelope, or is an envelope with
    neither a [result] member nor a truthy [error] member (an [event: ]
    or comment line, a blank line, a [data: ] line that is not JSON, a
    notification), has no influence: the stream with the line and the
    stream without it settle alike. *)
Theorem skipped_line_is_transparent (body body' : Body) before l after :
  final body' = final body ->
  complete_lines (text_of (concat (chunks body))) = before ++ l :: after ->
  complete_lines (text_of (concat (chunks body'))) = before ++ after ->
  no_error l = true ->
  no_result l = true ->
  (handleSSEResponse body').1 = (handleSSEResponse body).1.
Proof.
  intros Hfinal Hlines Hlines' Herr Hres.
  rewrite !handleSSEResponse_aggregate, Hfinal, Hlines, Hlines'.
  unfold aggregate, aggregate_from. rewrite !for_lines_app.
  destruct (for_lines JNull before) as [r|e]; [|reflexivity].
  change (l :: after) with ([l] ++ after). rewrite for_lines_app.
  by rewrite (for_lines_nothing r [l]) by (cbn; by rewrite ?Herr, ?Hres).
Qed.

(** X3.  Bytes after the last line feed are never examined: a stream and
    the same stream followed by bytes that contain no 0x0A settle alike,
    so an event whose [data: ] line is not terminated before the stream
    ends is lost. *)
Theorem unterminated_line_is_ignored (body : Body) (rest : list Byte.byte) :
  Byte.x0a ∉ rest ->
  (handleSSEResponse {| chunks := chunks body ++ [rest]; final := final body |}).1
  = (handleSSEResponse body).1.
Proof.
  intros Hrest. rewrite !handleSSEResponse_aggregate. cbn [chunks final].
  rewrite concat_app. simpl concat. rewrite app_nil_r.
  unfold text_of. rewrite decode_app.
  destruct (decode_no_LF new_TextDecoder (concat (chunks body)) eq_refl) as [Hok _].
  destruct (decode new_TextDecoder (concat (chunks body))) as [td out].
  cbn [fst snd] in *.
  destruct (decode_no_LF td rest Hok) as [_ Hout].
  destruct (decode td rest) as [td' out']. cbn [fst snd] in *.
  by rewrite complete_lines_tail by auto.
Qed.

(** X4.  When a read fails and no completed line before it was an
    envelope with a truthy [error] member, the promise is rejected with
    the error of the reader, whatever result the lines had carried. *)
Theorem failed_read_rejects (body : Body) e :
  final body = StreamError e ->
  forallb no_error (complete_lines (text_of (concat (chunks body)))) = true ->
  (handleSSEResponse body).1 = Rejected e.
Proof.
  intros Hfinal Herr. rewrite handleSSEResponse_aggregate, Hfinal.
  unfold aggregate, aggregate_from.
  by destruct (for_lines_no_error JNull _ Herr) as [r ->].
Qed.

(** X5.  A rejection of [handleSSEResponse] has one of four causes: the
    response has no body, and the rejection is the [TypeError] of reading
    [getReader] of [null]; a completed line carried an envelope with a
    truthy [error] member, whose message (or [SSE error]), converted to a
    string, is the message of the rejection; a read failed, and the
    rejection is the reader's error; or the stream ended and the rejection
    is [No data received from SSE stream]. *)
Theorem rejection_has_a_cause (body : option Body) e :
  (handleSSEResponse_body body).1 = Rejected e ->
  (body = None /\ e = engine_error (NullPropertyRead (js "getReader"))) \/
  exists stream,
    body = Some stream /\
    ((exists l env error,
        l ∈ complete_lines (text_of (concat (chunks stream))) /\
        envelope l = Some env /\ error_member env = Some error /\
        origin e = SseEnvelopeError /\
        ToString (or_else (member error (js "message")) (JStr (js "SSE error")))
          = Some (message e)) \/
     final stream = StreamError e \/
     (final stream = StreamEnd /\
      e = {| origin := SseNoData;
             message := js "No data received from SSE stream" |})).
Proof.
  destruct body as [stream|]; cbn [handleSSEResponse_body fst].
  - intros Hrej. right. exists stream. split; [reflexivity|]. revert Hrej.
    rewrite handleSSEResponse_aggregate. unfold aggregate, aggregate_from.
    destruct (for_lines JNull _) as [r|e'] eqn:Hfor.
    + cbn [processChunk fst]. destruct (final stream) as [|e'].
      * destruct (truthy r); [done|]. intros [= <-]. right. right. by split.
      * intros [= <-]. right. by left.
    + intros [= <-]. left. by apply (for_lines_reject JNull).
  - intros [= <-]. by left.
Qed.

End Streams.

(** ** The client: notifications, the two transports, what stays fixed *)

Section Transport.
Context `{Runtime}.
Variable net : Network.

(** X6.  [sendNotification] never fails and never touches the client: it
    sends one message without an id to the configured URL and resolves,
    whatever [fetch] does; a failed [fetch] leaves one warning on the
    console.  The message goes out under the fixed and the configured
    headers only: a session id the client holds is not attached. *)
Theorem notification_never_fails method_name arguments w :
  (sendNotification net method_name arguments w).1 = Resolved tt /\
  this (sendNotification net method_name arguments w).2 = this w /\
  exists r,
    wire (sendNotification net method_name arguments w).2 = wire w ++ [r] /\
    req_url r = url (this w) /\
    id (req_body r) = None /\
    method (req_body r) = method_name /\
    params (req_body r) = arguments /\
    req_headers r = base_headers (this w) /\
    req_headers r !! js "Mcp-Session-Id" = headers (this w) !! js "Mcp-Session-Id" /\
    (forall r', net (wire w ++ [r]) = Resolved r' ->
       console (sendNotification net method_name arguments w).2 = console w) /\
    (forall e, net (wire w ++ [r]) = Rejected e ->
       console (sendNotification net method_name arguments w).2 =
       console w ++
       [{| log_level := LevelWarn;
           log_args := [Text (js "Notification " ++ method_name ++ js " failed:");
                        Text (message e)] |}]).
Proof.
  unfold sendNotification. run_M.
  destruct (net _) as [r'|e] eqn:Hnet; world_simpl.
  all: split; [reflexivity|]; split; [reflexivity|].
  all: eexists; split; [reflexivity|];
         cbn [req_url req_body req_headers id method params].
  all: repeat (split; [reflexivity|]).
  all: split; [unfold base_headers; by apply lookup_union_l, lookup_singleton_ne|].
  all: rewrite Hnet; split; intros ? Heq; try discriminate Heq;
         try injection Heq as <-; reflexivity.
Qed.

(** X7.  [initialize] sends the [notifications/initialized] notification
    when, and only when, its request has succeeded, and then resolves with
    the result and the session id the client holds afterwards, whatever
    becomes of the notification.  When it fails, its request is the only
    message sent. *)
Theorem initialize_notifies_after_success w :
  (forall result sid,
     (initialize net w).1 = Resolved (result, sid) ->
     sid = sessionId (this (initialize net w).2) /\
     exists r n,
       wire (initialize net w).2 = wire w ++ [r; n] /\
       method (req_body r) = js "initialize" /\
       id (req_body r) = Some (increment (requestId (this w))) /\
       method (req_body n) = js "notifications/initialized" /\
       id (req_body n) = None /\
       req_headers n = base_headers (this w)) /\
  (forall e,
     (initialize net w).1 = Rejected e ->
     exists r,
       wire (initialize net w).2 = wire w ++ [r] /\
       method (req_body r) = js "initialize").
Proof.
  destruct (initialize_run_wire net w) as (logs & ->).
  cbn [fst snd this wire sessionId]. split.
  - intros result sid.
    destruct (net _) as [response|e]; [|done].
    destruct (response_outcome response) as [v|e]; [|done].
    intros [= <- <-]. split; [reflexivity|].
    eexists _, _. split; [reflexivity|]. by repeat split.
  - intros e.
    destruct (net _) as [response|e'].
    + destruct (response_outcome response) as [v|e']; [done|].
      intros _. eexists. by split.
    + intros _. eexists. by split.
Qed.

(** X8.  No call changes the URL or the configured headers of the client,
    and calls other than [initialize] leave its session id alone as well,
    whatever the responses carry: only [initialize] reads the
    [mcp-session-id] header. *)
Theorem client_fields_are_kept (calls : list call) w :
  url (this (run net calls w)) = url (this w) /\
  headers (this (run net calls w)) = headers (this w) /\
  (forallb is_request_call calls = true ->
   sessionId (this (run net calls w)) = sessionId (this w)).
Proof.
  revert w. induction calls as [|c calls IH]; intros w; [done|].
  cbn [run forallb].
  destruct (IH (perform net c w).2) as (Hu & Hh & Hs).
  destruct (perform_run net c w) as (r & rest & _ & _ & _ & _ & Hh' & Hreq).
  destruct (perform_messages net c w) as (new & _ & _ & Hu').
  rewrite Hu, Hh, Hu', Hh'. split; [reflexivity|]. split; [reflexivity|].
  intros Hc. apply andb_true_iff in Hc as [Hc Hcs].
  rewrite (Hs Hcs). by destruct (Hreq Hc) as (_ & _ & ->).
Qed.

(** X9.  Every message the client sends, in any sequence of calls, is a
    POST of a JSON-RPC 2.0 message to the configured URL, and its headers
    are the fixed [Content-Type] and the configured headers, with at most
    an [Mcp-Session-Id] besides: no other header is ever added. *)
Theorem every_message_is_well_formed (calls : list call) w :
  Forall (sent_by (this w)) (drop (length (wire w)) (wire (run net calls w))).
Proof.
  assert (Hrun : exists new, wire (run net calls w) = wire w ++ new /\
                             Forall (sent_by (this w)) new).
  { revert w. induction calls as [|c calls IH]; intros w.
    - exists []. split; [by rewrite app_nil_r | constructor].
    - cbn [run].
      destruct (perform_messages net c w) as (new & Hw & Hnew & Hu).
      destruct (perform_run net c w) as (_ & _ & _ & _ & _ & _ & Hh & _).
      destruct (IH (perform net c w).2) as (new' & Hw' & Hnew').
      exists (new ++ new'). split; [by rewrite Hw', Hw, app_assoc|].
      apply Forall_app. split; [exact Hnew|].
      eapply Forall_impl; [exact Hnew'|]. intros r.
      unfold sent_by, base_headers. by rewrite Hu, Hh. }
  destruct Hrun as (new & -> & Hnew). by rewrite drop_app_length.
Qed.


(** X11.  On an OK response that is not an event stream and whose body
    parses to a value other than null without a truthy [error] member,
    [sendRequest] resolves with the [result] member of that value
    ([undefined] when it has none), and [initialize] with the same beside
    the session id.  Neither the [jsonrpc] member nor the [id] of the
    response is looked at. *)
Theorem json_result_is_passed_on w response v :
  is_event_stream response = false ->
  ok response = true ->
  Response_json response = Resolved v ->
  v <> JNull ->
  error_member v = None ->
  (forall method_name arguments,
     net (wire w ++ [sendRequest_fetch (this w) method_name arguments])
       = Resolved response ->
     (sendRequest net method_name arguments w).1
       = Resolved (member v (js "result"))) /\
  (net (wire w ++ [initialize_fetch (this w)]) = Resolved response ->
   (initialize net w).1
     = Resolved (member v (js "result"), sessionId (this (initialize net w).2))).
Proof.
  intros Hes Hok Hjson Hv Herr.
  assert (Hout : response_outcome response = Resolved (member v (js "result"))).
  { unfold response_outcome. rewrite Hes, Hok, Hjson. cbn [negb].
    unfold json_outcome. unfold error_member in Herr.
    destruct v; try done.
    destruct (member _ (js "error")) as [error|]; [|done].
    by destruct (truthy error). }
  split.
  - intros method_name arguments Hnet.
    destruct (sendRequest_run net method_name arguments w) as (logs & ->).
    cbn [fst]. by rewrite Hnet, Hout.
  - intros Hnet. destruct (initialize_run net w) as (logs & rest & -> & _).
    cbn [fst snd this sessionId]. by rewrite Hnet, Hout.
Qed.

(** X12.  An OK response that is not an event stream fails the call when
    its body is not JSON (an empty body included) and when its body is
    the JSON null: [sendRequest] rejects with the engine's message behind
    [MCP request failed: ], a TransportError. *)
Theorem body_without_json_fails w response method_name arguments :
  net (wire w ++ [sendRequest_fetch (this w) method_name arguments])
    = Resolved response ->
  is_event_stream response = false ->
  ok response = true ->
  final (body response) = StreamEnd ->
  (JSON_parse (decode_all (concat (chunks (body response)))) = None ->
   (sendRequest net method_name arguments w).1 =
   Rejected {| origin := Platform;
               message :=
                 js "MCP request failed: " ++
                 exception_message
                   (JsonSyntaxError (decode_all (concat (chunks (body response))))) |}) /\
  (JSON_parse (decode_all (concat (chunks (body response)))) = Some JNull ->
   (sendRequest net method_name arguments w).1 =
   Rejected {| origin := Platform;
               message :=
                 js "MCP request failed: " ++
                 exception_message (NullPropertyRead (js "error")) |}) /\
  (forall m, classify {| origin := Platform; message := m |} = TransportError).
Proof.
  intros Hnet Hes Hok Hend.
  destruct (sendRequest_run net method_name arguments w) as (logs & ->).
  cbn [fst]. rewrite Hnet. unfold response_outcome, Response_json, Response_text.
  rewrite Hes, Hok, Hend. cbn [negb].
  split; [|split].
  - by intros ->.
  - by intros ->.
  - reflexivity.
Qed.

(** X13.  When [fetch] itself fails, [initialize] rejects with that very
    error, having used up a request id and sent nothing else, and the
    session id of the client is what it was; [sendRequest] rejects with
    the same message behind [MCP request failed: ] and changes nothing of
    the client but the request counter. *)
Theorem failed_fetch_changes_only_the_counter w e :
  (net (wire w ++ [initialize_fetch (this w)]) = Rejected e ->
   (initialize net w).1 = Rejected e /\
   this (initialize net w).2 = bump (this w) /\
   wire (initialize net w).2 = wire w ++ [initialize_fetch (this w)]) /\
  (forall method_name arguments,
     net (wire w ++ [sendRequest_fetch (this w) method_name arguments]) = Rejected e ->
     (sendRequest net method_name arguments w).1
       = Rejected {| origin := origin e;
                     message := js "MCP request failed: " ++ message e |} /\
     this (sendRequest net method_name arguments w).2 = bump (this w) /\
     wire (sendRequest net method_name arguments w).2
       = wire w ++ [sendRequest_fetch (this w) method_name arguments]).
Proof.
  split.
  - intros Hnet. destruct (initialize_run_wire net w) as (logs & ->).
    cbn [fst snd this wire]. by rewrite Hnet.
  - intros method_name arguments Hnet.
    destruct (sendRequest_run net method_name arguments w) as (logs & ->).
    cbn [fst snd this wire]. by rewrite Hnet.
Qed.

(** X21.  [listTools] sends one [tools/list] request under the next id:
    its params hold the cursor when that is a non-empty string and are
    empty otherwise, so an empty cursor and no cursor look alike to the
    server.  [callTool] sends one [tools/call] request whose params are
    the tool name and the arguments as given.  Both do so whatever the
    response turns out to be. *)
Theorem tool_requests_on_the_wire w :
  (forall cursor,
     exists r,
       wire (listTools net cursor w).2 = wire w ++ [r] /\
       method (req_body r) = js "tools/list" /\
       id (req_body r) = Some (increment (requestId (this w))) /\
       (cursor = None \/ cursor = Some [] -> params (req_body r) = JObj []) /\
       (forall c cursor', cursor = Some (c :: cursor') ->
          params (req_body r) = JObj [(js "cursor", JStr (c :: cursor'))])) /\
  (forall toolName args,
     exists r,
       wire (callTool net toolName args w).2 = wire w ++ [r] /\
       method (req_body r) = js "tools/call" /\
       id (req_body r) = Some (increment (requestId (this w))) /\
       params (req_body r)
         = JObj [(js "name", JStr toolName); (js "arguments", args)]).
Proof.
  split.
  - intros cursor. unfold listTools.
    destruct (sendRequest_run net (js "tools/list")
                (match truthy_string cursor with
                 | Some cursor => JObj [(js "cursor", JStr cursor)]
                 | None => JObj []
                 end) w) as (logs & ->).
    eexists. split; [reflexivity|]. cbn [sendRequest_fetch req_body method id params].
    split; [reflexivity|]. split; [reflexivity|]. split.
    + by intros [-> | ->].
    + by intros c cursor' ->.
  - intros toolName args. unfold callTool.
    destruct (sendRequest_run net (js "tools/call")
                (JObj [(js "name", JStr toolName); (js "arguments", args)]) w)
      as (logs & ->).
    eexists. by repeat split.
Qed.

End Transport.

(** ** Substrings of a message *)

Lemma startsWith_app s t sub :
  startsWith s sub = true -> startsWith (s ++ t) sub = true.
Proof.
  revert s. induction sub as [|p sub IH]; intros [|c s]; simpl; try done.
  - by destruct t.
  - intros Hs. apply andb_true_iff in Hs as [-> Hs]. by apply IH.
Qed.

Lemma includes_app_l s t sub :
  includes s sub = true -> includes (s ++ t) sub = true.
Proof.
  induction s as [|c s IH]; simpl.
  - rewrite orb_false_r. destruct sub; [|done]. intros _. by destruct t.
  - intros Hs. apply orb_true_iff in Hs as [Hs|Hs].
    + apply (startsWith_app (c :: s) t) in Hs. simpl in Hs. by rewrite Hs.
    + rewrite (IH Hs). apply orb_true_r.
Qed.

Lemma includes_app_r s t sub :
  includes t sub = true -> includes (s ++ t) sub = true.
Proof.
  intros Ht. induction s as [|c s IH]; [done|].
  simpl. rewrite IH. apply orb_true_r.
Qed.



(** ** The configuration resolver and the replies of the router *)

Lemma strict_equals_string_true x s :
  strict_equals_string x s = true -> x = Some (JStr s).
Proof.
  destruct x as [[]|]; simpl; try done. unfold jsstring_eqb.
  intros Hs. apply bool_decide_eq_true in Hs. by subst.
Qed.

Lemma own_property_is_Some members k :
  is_Some (own_property members k) <-> k ∈ members.*1.
Proof.
  induction members as [|[k' v] members IH]; simpl.
  - split; [by intros [? ?] | by intros ?%elem_of_nil].
  - rewrite elem_of_cons, <- IH. unfold jsstring_eqb.
    destruct (own_property members k) as [v'|].
    + split; [right; by eexists | by eexists].
    + case_bool_decide as Hk.
      * split; [by left | by eexists].
      * split; [by intros [? ?] | intros [-> | [? ?]]; done].
Qed.

Lemma first_occurrences_spec members :
  NoDup (first_occurrences members) /\
  forall k, k ∈ first_occurrences members <-> k ∈ members.*1.
Proof.
  unfold first_occurrences. split.
  - rewrite reverse_Permutation. apply NoDup_remove_dups.
  - intros k. by rewrite elem_of_reverse, elem_of_remove_dups, elem_of_reverse.
Qed.

Lemma Object_keys_spec members :
  NoDup (Object_keys members) /\
  forall k, k ∈ Object_keys members <-> is_Some (own_property members k).
Proof.
  destruct (first_occurrences_spec members) as [Hnd Hin].
  unfold Object_keys. cbv zeta. split.
  - apply NoDup_app. split; [|split].
    + rewrite merge_sort_Permutation. by apply NoDup_filter.
    + intros k. rewrite merge_sort_Permutation, !list_elem_of_filter.
      intros [Hk _] [Hk' _]. by destruct (is_array_index k).
    + by apply NoDup_filter.
  - intros k.
    rewrite elem_of_app, merge_sort_Permutation, !list_elem_of_filter, !Hin,
      own_property_is_Some.
    destruct (is_array_index k); simpl; tauto.
Qed.


Lemma endpoint_url config serverConfig :
  endpoint config = Some serverConfig ->
  member config (js "url") = Some (JStr (config_url serverConfig)).
Proof.
  unfold endpoint.
  destruct (member config (js "url")) as [[| | |u| |]|]; try done.
  intros Hend. f_equal. f_equal.
  destruct (member config (js "headers")) as [h|]; [|by injection Hend as <-].
  destruct h as [|b|m e|s|l|ms]; cbn in Hend;
    try (destruct (string_members ms); cbn in Hend);
    repeat match type of Hend with
    | context [if ?c then _ else _] => destruct c
    end; try done; by injection Hend as <-.
Qed.

Section Router.
Context `{Runtime}.
Variable net : Network.

Lemma listServers_map_names servers names entries :
  listServers_map servers names = Returns entries ->
  entry_name <$> entries = names.
Proof.
  revert entries. induction names as [|name names IH]; intros entries; simpl.
  - by intros [= <-].
  - destruct (Get servers name) as [[]| |];
      destruct (listServers_map servers names) as [entries'|m]; try done;
      intros [= <-]; cbn; by rewrite (IH entries').
Qed.

Lemma listServers_map_entry servers names entries name config :
  listServers_map servers names = Returns entries ->
  name ∈ names ->
  own_property servers name = Some config ->
  {| entry_name := name; entry_url := member config (js "url");
     entry_type := member config (js "type") |} ∈ entries.
Proof.
  revert entries. induction names as [|name' names IH]; intros entries; simpl.
  - by intros _ ?%elem_of_nil.
  - intros Hmap Hin Hown. apply elem_of_cons in Hin as [<- | Hin].
    + unfold Get in Hmap. rewrite Hown in Hmap.
      destruct config; try done;
        destruct (listServers_map servers names); try done;
        injection Hmap as <-; by left.
    + destruct (Get servers name') as [[]| |];
        destruct (listServers_map servers names) as [entries'|m]; try done;
        injection Hmap as <-; right; by apply IH.
Qed.

Lemma listServers_map_throws servers names :
  (exists name, name ∈ names /\ own_property servers name = Some JNull) ->
  listServers_map servers names
    = Throws (exception_message (NullPropertyRead (js "url"))).
Proof.
  intros (name & Hin & Hown).
  induction names as [|name' names IH]; [by apply elem_of_nil in Hin|].
  simpl. apply elem_of_cons in Hin as [<- | Hin].
  - unfold Get. by rewrite Hown.
  - rewrite (IH Hin).
    by destruct (Get servers name') as [[]| |].
Qed.

Lemma listServers_map_returns servers names :
  (forall name, name ∈ names -> is_Some (own_property servers name)) ->
  (forall name, name ∈ names -> own_property servers name <> Some JNull) ->
  exists entries, listServers_map servers names = Returns entries.
Proof.
  induction names as [|name names IH]; intros Hown Hnull; [by eexists|].
  simpl. destruct IH as [entries ->].
  - intros name' Hin. apply Hown. by right.
  - intros name' Hin. apply Hnull. by right.
  - unfold Get. destruct (Hown name) as [config Hc]; [by left|]. rewrite Hc.
    destruct config; try by eexists.
    exfalso. apply (Hnull name); [by left | done].
Qed.

(** X14.  A server name that is not configured (or whose entry is falsy)
    and is not inherited from [Object.prototype] makes [getServerConfig],
    and so [createClient], throw [Server '<name>' not found in
    configuration]; each of the three MCP routes answers that error with
    404 and [Server not found], the message passed on. *)
Theorem unknown_server_is_404 servers serverName toolName :
  (own_property servers serverName = None /\ serverName ∉ Object_prototype) \/
  (exists config, own_property servers serverName = Some config /\
                  truthy config = false) ->
  exists m,
    m = js "Server '" ++ serverName ++ js "' not found in configuration" /\
    getServerConfig serverName servers = Throws m /\
    (forall sid, createClient servers serverName sid = Throws m) /\
    (initialize_catch serverName m).2
      = {| reply_status := 404; reply_error := js "Server not found";
           reply_message := m |} /\
    (tools_catch serverName m).2
      = {| reply_status := 404; reply_error := js "Server not found";
           reply_message := m |} /\
    (execute_catch serverName toolName m).2
      = {| reply_status := 404; reply_error := js "Server not found";
           reply_message := m |}.
Proof.
  intros Hunknown. eexists. split; [reflexivity|].
  assert (Hget : getServerConfig serverName servers
                 = Throws (js "Server '" ++ serverName
                           ++ js "' not found in configuration")).
  { unfold getServerConfig, Get.
    destruct Hunknown as [[-> Hproto] | (config & -> & ->)]; [|done].
    by rewrite bool_decide_false. }
  assert (Hnf : includes (js "Server '" ++ serverName
                          ++ js "' not found in configuration") (js "not found")
                = true).
  { apply includes_app_r, includes_app_r. by vm_compute. }
  assert (Hs : includes (js "Server '" ++ serverName
                         ++ js "' not found in configuration") (js "Server")
               = true).
  { apply includes_app_l. by vm_compute. }
  split; [exact Hget|]. split; [intros sid; unfold createClient; by rewrite Hget|].
  unfold initialize_catch, tools_catch, execute_catch. cbn [snd].
  by rewrite Hnf, Hs.
Qed.

(** X15.  A server name that is a property every object inherits
    ([constructor], [toString], [__proto__], ...) and that the
    configuration does not define is not reported as unknown:
    [getServerConfig] finds the inherited value, throws [Server '<name>'
    is not an HTTP server], and the three routes answer 500 instead of
    404. *)
Theorem inherited_name_is_500 servers serverName toolName :
  serverName ∈ Object_prototype ->
  own_property servers serverName = None ->
  exists m,
    m = js "Server '" ++ serverName ++ js "' is not an HTTP server" /\
    getServerConfig serverName servers = Throws m /\
    (initialize_catch serverName m).2
      = {| reply_status := 500; reply_error := js "Initialization failed";
           reply_message := m |} /\
    (tools_catch serverName m).2
      = {| reply_status := 500; reply_error := js "Failed to list tools";
           reply_message := m |} /\
    (execute_catch serverName toolName m).2
      = {| reply_status := 500; reply_error := js "Tool execution failed";
           reply_message := m |}.
Proof.
  intros Hproto Hown. eexists. split; [reflexivity|]. split.
  { unfold getServerConfig, Get. by rewrite Hown, bool_decide_true. }
  unfold initialize_catch, tools_catch, execute_catch. cbn [snd].
  unfold Object_prototype in Hproto. cbn [fmap list_fmap] in Hproto.
  repeat (apply elem_of_cons in Hproto as [-> | Hproto];
          [split; [|split]; vm_compute; reflexivity|]).
  by apply elem_of_nil in Hproto.
Qed.


(** X17.  Let the upstream server answer a call with a JSON-RPC error
    whose message, converted to a string, contains [not found]: either
    in the JSON body of an OK response that is not an event stream, or as
    the first error envelope of an event stream, whatever its status.
    Then [listTools] and [callTool] fail with that message behind
    [MCP request failed: ], a ProtocolError; the tools route answers 404
    [Server not found] with it, although the server was found, and the
    execute route answers 404 as well. *)
Theorem upstream_not_found_is_404 w response m serverName toolName :
  includes m (js "not found") = true ->
  (is_event_stream response = false /\ ok response = true /\
   exists v error,
     Response_json response = Resolved v /\
     error_member v = Some error /\
     ToString (or_else (member error (js "message")) (JStr (js "Unknown MCP error")))
       = Some m) \/
  (is_event_stream response = true /\
   exists before l after env error,
     complete_lines (text_of (concat (chunks (body response)))) = before ++ l :: after /\
     forallb no_error before = true /\
     envelope l = Some env /\
     error_member env = Some error /\
     ToString (or_else (member error (js "message")) (JStr (js "SSE error")))
       = Some m) ->
  (forall cursor,
     net (wire w ++ [sendRequest_fetch (this w) (js "tools/list")
                       (match truthy_string cursor with
                        | Some cursor => JObj [(js "cursor", JStr cursor)]
                        | None => JObj []
                        end)]) = Resolved response ->
     exists e,
       (listTools net cursor w).1 = Rejected e /\
       message e = js "MCP request failed: " ++ m /\
       classify e = ProtocolError /\
       (tools_catch serverName (message e)).2
         = {| reply_status := 404; reply_error := js "Server not found";
              reply_message := message e |}) /\
  (forall args,
     net (wire w ++ [sendRequest_fetch (this w) (js "tools/call")
                       (JObj [(js "name", JStr toolName); (js "arguments", args)])])
       = Resolved response ->
     exists e,
       (callTool net toolName args w).1 = Rejected e /\
       message e = js "MCP request failed: " ++ m /\
       classify e = ProtocolError /\
       reply_status (execute_catch serverName toolName (message e)).2 = 404).
Proof.
  intros Hnf Hcase.
  assert (Hout : exists e0,
            response_outcome response = Rejected e0 /\
            message e0 = m /\ classify e0 = ProtocolError).
  { unfold response_outcome.
    destruct Hcase as [(Hes & Hok & v & error & Hjson & Herr & Hm)
                      |(Hes & before & l & after & env & error
                        & Hlines & Hbefore & Henv & Herr & Hm)].
    - rewrite Hes, Hok, Hjson. cbn [negb].
      unfold json_outcome. unfold error_member in Herr.
      destruct v; try done.
      destruct (member _ (js "error")) as [error'|]; [|done].
      destruct (truthy error'); [|done]. injection Herr as ->.
      rewrite Hm. by eexists.
    - rewrite Hes, handleSSEResponse_aggregate, Hlines.
      unfold aggregate, aggregate_from.
      rewrite (for_lines_first_error JNull before l after env error m
                 Hbefore Henv Herr Hm).
      by eexists. }
  destruct Hout as (e0 & Hout & Hmsg & Hkind).
  assert (Hnf' : includes (js "MCP request failed: " ++ m) (js "not found") = true)
    by (by apply includes_app_r).
  split.
  - intros cursor Hnet. unfold listTools.
    destruct (sendRequest_run net (js "tools/list")
                (match truthy_string cursor with
                 | Some cursor => JObj [(js "cursor", JStr cursor)]
                 | None => JObj []
                 end) w) as (logs & ->).
    cbn [fst]. rewrite Hnet, Hout. eexists. split; [reflexivity|].
    unfold request_failed. cbn [message]. rewrite Hmsg.
    split; [reflexivity|]. split; [exact Hkind|].
    unfold tools_catch. cbn [snd]. by rewrite Hnf'.
  - intros args Hnet. unfold callTool.
    destruct (sendRequest_run net (js "tools/call")
                (JObj [(js "name", JStr toolName); (js "arguments", args)]) w)
      as (logs & ->).
    cbn [fst]. rewrite Hnet, Hout. eexists. split; [reflexivity|].
    unfold request_failed. cbn [message]. rewrite Hmsg.
    split; [reflexivity|]. split; [exact Hkind|].
    unfold execute_catch. cbn [snd]. rewrite Hnf', orb_true_r.
    by destruct (includes _ (js "Server")).
Qed.

(** X18.  The session id a caller supplies reaches the upstream server:
    the [sessionId] query parameter when it is not empty, whatever the
    [Mcp-Session-Id] header of the caller says, and that header otherwise.
    The client [createClient] builds for it holds the id and sends it as
    [Mcp-Session-Id] with its first request, to the URL the configuration
    gives for the server. *)
Theorem caller_session_id_reaches_upstream servers serverName
    query_sessionId header sid client method_name arguments :
  truthy_string query_sessionId = Some sid \/
  (truthy_string query_sessionId = None /\ truthy_string header = Some sid) ->
  createClient servers serverName (getSessionId query_sessionId header)
    = Returns (Some client) ->
  getSessionId query_sessionId header = Some sid /\
  sessionId client = Some sid /\
  (exists config,
     own_property servers serverName = Some config /\
     member config (js "url") = Some (JStr (url client))) /\
  exists r,
    wire (sendRequest net method_name arguments
            {| this := client; wire := []; console := [] |}).2 = [r] /\
    req_url r = url client /\
    req_headers r !! js "Mcp-Session-Id" = Some sid.
Proof.
  intros Hsid Hclient.
  assert (Hget : getSessionId query_sessionId header = Some sid).
  { unfold getSessionId. destruct Hsid as [-> | [-> ->]]; reflexivity. }
  assert (Htruthy : truthy_string (Some sid) = Some sid).
  { destruct Hsid as [Hs | [_ Hs]]; exact (truthy_string_idem _ _ Hs). }
  rewrite Hget in Hclient. unfold createClient in Hclient.
  destruct (getServerConfig serverName servers) as [config|] eqn:Hconfig; [|done].
  destruct (endpoint config) as [serverConfig|] eqn:Hendpoint; [|done].
  injection Hclient as <-. cbn [constructor sessionId url].
  split; [exact Hget|]. split; [reflexivity|]. split.
  - exists config. unfold getServerConfig, Get in Hconfig.
    destruct (own_property servers serverName) as [config'|];
      [|by destruct (bool_decide _)].
    destruct (negb (truthy config')); [done|].
    destruct (negb (strict_equals_string _ _)); [done|].
    destruct (falsy _); [done|]. injection Hconfig as ->.
    split; [reflexivity | by apply endpoint_url].
  - destruct (sendRequest_run net method_name arguments
                {| this := constructor serverConfig (Some sid); wire := [];
                   console := [] |}) as (logs & ->).
    eexists. split; [reflexivity|]. split; [reflexivity|].
    cbn [sendRequest_fetch req_headers this]. unfold request_headers.
    cbn [constructor sessionId]. rewrite Htruthy. apply lookup_insert_eq.
Qed.

(** X19.  What [getServerConfig] returns is the entry the configuration
    holds under that name (the last one, if the name is given twice), an
    object whose [type] is the string http and whose [url] is truthy; and
    [listServers], when it returns, lists that server under its name with
    this URL and type. *)
Theorem accepted_server_is_listed servers serverName config :
  getServerConfig serverName servers = Returns config ->
  own_property servers serverName = Some config /\
  member config (js "type") = Some (JStr (js "http")) /\
  (exists u, member config (js "url") = Some u /\ truthy u = true) /\
  forall entries,
    listServers servers = Returns entries ->
    {| entry_name := serverName; entry_url := member config (js "url");
       entry_type := Some (JStr (js "http")) |} ∈ entries.
Proof.
  unfold getServerConfig, Get.
  destruct (own_property servers serverName) as [config'|] eqn:Hown;
    [|by destruct (bool_decide _)].
  destruct (negb (truthy config')); [done|].
  destruct (strict_equals_string _ _) eqn:Htype; [|done]. cbn [negb].
  destruct (falsy _) eqn:Hurl; [done|]. intros [= <-].
  apply strict_equals_string_true in Htype.
  split; [reflexivity|]. split; [exact Htype|]. split.
  - unfold falsy in Hurl. destruct (member config' (js "url")) as [u|]; [|done].
    exists u. split; [reflexivity|]. by apply negb_false_iff.
  - intros entries Hlist. rewrite <- Htype.
    apply (listServers_map_entry servers (Object_keys servers)); [done| |done].
    apply Object_keys_spec. by rewrite Hown.
Qed.

(** X20.  [listServers] returns one entry for each name of the
    configuration, no name twice, unless an entry is null: then it throws
    the engine's [TypeError] and the route answers 500 [Failed to list
    servers].  When it returns, the route reports the entries and their
    number. *)
Theorem listServers_lists_each_name_once servers :
  (forall entries,
     listServers servers = Returns entries ->
     entry_name <$> entries = Object_keys servers /\
     NoDup (entry_name <$> entries) /\
     (forall name, name ∈ entry_name <$> entries <->
                   is_Some (own_property servers name)) /\
     list_servers_route servers = inl (entries, length entries)) /\
  ((exists name, own_property servers name = Some JNull) ->
   listServers servers = Throws (exception_message (NullPropertyRead (js "url"))) /\
   list_servers_route servers
     = inr {| reply_status := 500; reply_error := js "Failed to list servers";
              reply_message := exception_message (NullPropertyRead (js "url")) |}) /\
  ((forall name, own_property servers name <> Some JNull) ->
   exists entries, listServers servers = Returns entries).
Proof.
  destruct (Object_keys_spec servers) as [Hnd Hin].
  split; [|split].
  - intros entries Hlist. unfold list_servers_route. rewrite Hlist.
    apply listServers_map_names in Hlist. rewrite Hlist.
    split; [reflexivity|]. split; [exact Hnd|]. split; [exact Hin | reflexivity].
  - intros (name & Hnull).
    assert (Hthrows : listServers servers
                      = Throws (exception_message (NullPropertyRead (js "url")))).
    { apply listServers_map_throws. exists name. split; [|exact Hnull].
      apply Hin. by rewrite Hnull. }
    unfold list_servers_route. by rewrite Hthrows.
  - intros Hnull. apply listServers_map_returns.
    + intros name. apply Hin.
    + intros name _. apply Hnull.
Qed.

End Router.

Section Routes.
Context `{Runtime}.
Variable net : Network.

(** What the shared lines of the two routes leave behind, before the
    request proper goes out. *)
Lemma newSessionId_run init sid w :
  (shouldInitialize init = false ->
   newSessionId net init sid w = (Resolved sid, w)) /\
  (shouldInitialize init = true ->
   forall response S,
     net (wire w ++ [initialize_fetch (this w)]) = Resolved response ->
     truthy_string (Headers_get (response_headers response) (js "mcp-session-id"))
       = Some S ->
     (forall e, response_outcome response = Rejected e ->
        (newSessionId net init sid w).1 = Rejected e /\
        wire (newSessionId net init sid w).2 = wire w ++ [initialize_fetch (this w)]) /\
     (forall v, response_outcome response = Resolved v ->
        exists w',
          newSessionId net init sid w = (Resolved (Some S), w') /\
          sessionId (this w') = Some S /\
          requestId (this w') = increment (requestId (this w)) /\
          wire w' = wire w ++
                    [initialize_fetch (this w);
                     sendNotification_fetch (this w)
                       (js "notifications/initialized") (JObj [])])).
Proof.
  unfold newSessionId. split; intros ->; [reflexivity|].
  intros response S Hnet HS. unfold bind, ret.
  destruct (initialize_run_wire net w) as (logs & ->).
  rewrite Hnet. cbn [session_after]. rewrite HS. split.
  - by intros e ->.
  - intros v ->. eexists. by repeat split.
Qed.

(** X22.  The tools route and the execute route initialize the session
    only when the [init] query parameter is exactly the string true.
    Without it they send the one request, and the session id they put in
    the reply is the caller's.  With it, and the upstream server opening a
    session S, the caller's session id is dropped: the request goes out
    third, after the handshake, under [Mcp-Session-Id: S], and S is the
    session id of the reply; when the handshake fails nothing more is
    sent and its error is the error of the route. *)
Theorem init_flag_relays_the_session w init sid :
  (shouldInitialize init = false ->
   (forall cursor,
      wire (tools_try net init sid cursor w).2 = wire (listTools net cursor w).2 /\
      forall out, (tools_try net init sid cursor w).1 = Resolved out ->
                  out.1 = truthy_string sid) /\
   (forall toolName args,
      wire (execute_try net init sid toolName args w).2
        = wire (callTool net toolName args w).2 /\
      forall out, (execute_try net init sid toolName args w).1 = Resolved out ->
                  out.1 = truthy_string sid)) /\
  (shouldInitialize init = true ->
   forall response S,
     net (wire w ++ [initialize_fetch (this w)]) = Resolved response ->
     truthy_string (Headers_get (response_headers response) (js "mcp-session-id"))
       = Some S ->
     (forall e, response_outcome response = Rejected e ->
        (forall cursor,
           (tools_try net init sid cursor w).1 = Rejected e /\
           wire (tools_try net init sid cursor w).2
             = wire w ++ [initialize_fetch (this w)]) /\
        (forall toolName args,
           (execute_try net init sid toolName args w).1 = Rejected e /\
           wire (execute_try net init sid toolName args w).2
             = wire w ++ [initialize_fetch (this w)])) /\
     (forall v, response_outcome response = Resolved v ->
        (forall cursor,
           exists i n r,
             wire (tools_try net init sid cursor w).2 = wire w ++ [i; n; r] /\
             method (req_body i) = js "initialize" /\
             method (req_body n) = js "notifications/initialized" /\
             method (req_body r) = js "tools/list" /\
             req_headers r !! js "Mcp-Session-Id" = Some S /\
             forall out, (tools_try net init sid cursor w).1 = Resolved out ->
                         out.1 = Some S) /\
        (forall toolName args,
           exists i n r,
             wire (execute_try net init sid toolName args w).2 = wire w ++ [i; n; r] /\
             method (req_body i) = js "initialize" /\
             method (req_body n) = js "notifications/initialized" /\
             method (req_body r) = js "tools/call" /\
             req_headers r !! js "Mcp-Session-Id" = Some S /\
             forall out, (execute_try net init sid toolName args w).1 = Resolved out ->
                         out.1 = Some S))).
Proof.
  destruct (newSessionId_run init sid w) as [Hwithout Hwith]. split.
  - intros Hinit. specialize (Hwithout Hinit).
    unfold tools_try, execute_try, bind, ret. rewrite Hwithout. split.
    + intros cursor. destruct (listTools net cursor w) as [[result|e] w'].
      * split; [reflexivity|]. by intros out [= <-].
      * by split.
    + intros toolName args.
      destruct (callTool net toolName args w) as [[result|e] w'].
      * split; [reflexivity|]. by intros out [= <-].
      * by split.
  - intros Hinit response S Hnet HS.
    destruct (Hwith Hinit response S Hnet HS) as [Hfails Hopens]. split.
    + intros e He. destruct (Hfails e He) as [Hout Hwire].
      unfold tools_try, execute_try, bind, ret.
      destruct (newSessionId net init sid w) as [[s|e'] w']; [done|].
      cbn [fst snd] in *. by injection Hout as ->.
    + intros v Hv. destruct (Hopens v Hv) as (w' & Hrun & Hsid & _ & Hwire).
      assert (Hheaders : forall method_name arguments,
                req_headers (sendRequest_fetch (this w') method_name arguments)
                  !! js "Mcp-Session-Id" = Some S).
      { intros method_name arguments. cbn [sendRequest_fetch req_headers].
        unfold request_headers. rewrite Hsid.
        destruct S as [|c S]; [by destruct (Headers_get _ _) as [[]|]|].
        apply lookup_insert_eq. }
      unfold tools_try, execute_try, listTools, callTool, bind, ret.
      rewrite Hrun. split.
      * intros cursor.
        destruct (sendRequest_run net (js "tools/list")
                    (match truthy_string cursor with
                     | Some cursor => JObj [(js "cursor", JStr cursor)]
                     | None => JObj []
                     end) w') as (logs & ->).
        eexists _, _, _. rewrite Hwire. split.
        { destruct (match net _ with Resolved _ => _ | Rejected _ => _ end);
            cbn [snd wire]; by rewrite <- app_assoc. }
        split; [reflexivity|]. split; [reflexivity|]. split; [reflexivity|].
        split; [apply Hheaders|]. intros out.
        destruct (match net _ with Resolved _ => _ | Rejected _ => _ end);
          [|done]. cbn [fst]. intros [= <-]. cbn [fst].
        destruct S as [|c S]; [by destruct (Headers_get _ _) as [[]|] | done].
      * intros toolName args.
        destruct (sendRequest_run net (js "tools/call")
                    (JObj [(js "name", JStr toolName); (js "arguments", args)]) w')
          as (logs & ->).
        eexists _, _, _. rewrite Hwire. split.
        { destruct (match net _ with Resolved _ => _ | Rejected _ => _ end);
            cbn [snd wire]; by rewrite <- app_assoc. }
        split; [reflexivity|]. split; [reflexivity|]. split; [reflexivity|].
        split; [apply Hheaders|]. intros out.
        destruct (match net _ with Resolved _ => _ | Rejected _ => _ end);
          [|done]. cbn [fst]. intros [= <-]. cbn [fst].
        destruct S as [|c S]; [by destruct (Headers_get _ _) as [[]|] | done].
Qed.

End Routes.

(** ** The further properties at sample inputs *)

(** The stream of [two_results], cut after 100 bytes, resolves with the
    result of its last event. *)
Lemma resolved_value_was_sent_witness :
  final (cut 100 two_results) = StreamEnd /\ truthy ok_true = true /\
  exists l env,
    l ∈ complete_lines (text_of (concat (chunks (cut 100 two_results)))) /\
    envelope l = Some env /\ error_member env = None /\
    member env (js "result") = Some ok_true.
Proof. apply (resolved_value_was_sent (cut 100 two_results) ok_true). evaluate. Defined.

(** With or without the progress notification: the same outcome. *)
Lemma skipped_line_is_transparent_witness :
  (handleSSEResponse (cut 40 two_results_only)).1
  = (handleSSEResponse (whole two_results)).1.
Proof.
  eapply (skipped_line_is_transparent (whole two_results) (cut 40 two_results_only)
            [text "event: message"]
            (text "data: {'jsonrpc':'2.0','method':'notifications/progress'}")
            [[];
             text "data: {'jsonrpc':'2.0','id':2,'result':{'ok':false}}";
             [];
             text "data: {'jsonrpc':'2.0','id':2,'result':{'ok':true}}";
             []]);
    evaluate.
Defined.

(** The final result is lost with the line feed the server did not send. *)
Lemma unterminated_line_is_ignored_witness :
  (handleSSEResponse {| chunks := chunks (whole first_result) ++ [unterminated_result];
                        final := final (whole first_result) |}).1
  = (handleSSEResponse (whole first_result)).1 /\
  (handleSSEResponse (whole first_result)).1
  = Resolved (JObj [(js "ok", JBool false)]).
Proof.
  split; [|evaluate].
  apply (unterminated_line_is_ignored (whole first_result) unterminated_result).
  intros Hin. apply list_elem_of_In in Hin. vm_compute in Hin.
  repeat (destruct Hin as [Hin|Hin]; [discriminate Hin|]). exact Hin.
Defined.

Lemma failed_read_rejects_witness :
  (handleSSEResponse interrupted).1
  = Rejected {| origin := Platform; message := js "terminated" |}.
Proof. apply (failed_read_rejects interrupted); evaluate. Defined.

Lemma rejection_has_a_cause_witness :
  (Some (cut 80 result_then_error) = None /\
   {| origin := SseEnvelopeError; message := js "boom" |}
   = engine_error (NullPropertyRead (js "getReader"))) \/
  exists stream,
    Some (cut 80 result_then_error) = Some stream /\
    ((exists l env error,
        l ∈ complete_lines (text_of (concat (chunks stream))) /\
        envelope l = Some env /\ error_member env = Some error /\
        origin {| origin := SseEnvelopeError; message := js "boom" |}
          = SseEnvelopeError /\
        ToString (or_else (member error (js "message")) (JStr (js "SSE error")))
          = Some (message {| origin := SseEnvelopeError; message := js "boom" |})) \/
     final stream = StreamError {| origin := SseEnvelopeError; message := js "boom" |} \/
     (final stream = StreamEnd /\
      {| origin := SseEnvelopeError; message := js "boom" |}
      = {| origin := SseNoData; message := js "No data received from SSE stream" |})).
Proof.
  apply (rejection_has_a_cause (Some (cut 80 result_then_error))
           {| origin := SseEnvelopeError; message := js "boom" |}).
  evaluate.
Defined.

(** A 204 response has no body to read. *)
Example no_body_is_a_TypeError :
  (handleSSEResponse_body None).1
    = Rejected {| origin := Platform;
                  message := js "Cannot read properties of null (reading 'getReader')" |}.
Proof. evaluate. Qed.


Lemma json_result_is_passed_on_witness :
  (callTool (always (json_response "" bare_result)) (js "get_weather") (JObj [])
     (fresh sample_config None)).1
    = Resolved (Some ok_true).
Proof.
  destruct (json_result_is_passed_on (always (json_response "" bare_result))
              (fresh sample_config None) (json_response "" bare_result)
              (JObj [(js "id", JNum 99 0); (js "result", ok_true)]))
    as [Hrequest _]; [evaluate | evaluate | evaluate | discriminate | evaluate |].
  unfold callTool. rewrite Hrequest by reflexivity. evaluate.
Defined.

(** A 200 response with an empty body. *)
Lemma body_without_json_fails_witness :
  (listTools (always (json_response "" "")) None (fresh sample_config None)).1
    = Rejected {| origin := Platform;
                  message := js "MCP request failed: Unexpected end of JSON input" |}.
Proof.
  destruct (body_without_json_fails (always (json_response "" ""))
              (fresh sample_config None) (json_response "" "")
              (js "tools/list") (JObj []))
    as [Hsyntax _]; [evaluate | evaluate | evaluate | evaluate |].
  unfold listTools. cbn [truthy_string]. rewrite Hsyntax by evaluate. evaluate.
Defined.

Lemma unknown_server_is_404_witness :
  exists m,
    m = js "Server '" ++ js "missing" ++ js "' not found in configuration" /\
    getServerConfig (js "missing") sample_servers = Throws m /\
    (forall sid, createClient sample_servers (js "missing") sid = Throws m) /\
    (initialize_catch (js "missing") m).2
      = {| reply_status := 404; reply_error := js "Server not found";
           reply_message := m |} /\
    (tools_catch (js "missing") m).2
      = {| reply_status := 404; reply_error := js "Server not found";
           reply_message := m |} /\
    (execute_catch (js "missing") (js "get_weather") m).2
      = {| reply_status := 404; reply_error := js "Server not found";
           reply_message := m |}.
Proof.
  apply (unknown_server_is_404 sample_servers (js "missing") (js "get_weather")).
  left. split; [evaluate|].
  intros Hin. apply list_elem_of_In in Hin. vm_compute in Hin.
  repeat (destruct Hin as [Hin|Hin]; [discriminate Hin|]). exact Hin.
Defined.

(** [GET /api/mcp/constructor/tools]: 500, not 404. *)
Lemma inherited_name_is_500_witness :
  exists m,
    m = js "Server '" ++ js "constructor" ++ js "' is not an HTTP server" /\
    getServerConfig (js "constructor") sample_servers = Throws m /\
    (initialize_catch (js "constructor") m).2
      = {| reply_status := 500; reply_error := js "Initialization failed";
           reply_message := m |} /\
    (tools_catch (js "constructor") m).2
      = {| reply_status := 500; reply_error := js "Failed to list tools";
           reply_message := m |} /\
    (execute_catch (js "constructor") (js "get_weather") m).2
      = {| reply_status := 500; reply_error := js "Tool execution failed";
           reply_message := m |}.
Proof.
  apply (inherited_name_is_500 sample_servers (js "constructor") (js "get_weather")).
  - apply list_elem_of_In. vm_compute. by left.
  - evaluate.
Defined.


(** The server says that the tool is not found, in a JSON body or in an
    event of a stream; the tools route would say that the server is not. *)
Lemma upstream_not_found_is_404_witness :
  (exists e,
     (listTools (always (json_response "" tool_error)) None
        (fresh sample_config None)).1 = Rejected e /\
     message e = js "MCP request failed: " ++ js "Tool not found: get_weather" /\
     classify e = ProtocolError /\
     (tools_catch (js "weather") (message e)).2
       = {| reply_status := 404; reply_error := js "Server not found";
            reply_message := message e |}) /\
  (exists e,
     (callTool (always tool_error_stream) (js "get_weather") (JObj [])
        (fresh sample_config None)).1 = Rejected e /\
     message e = js "MCP request failed: " ++ js "Tool not found: get_weather" /\
     classify e = ProtocolError /\
     reply_status (execute_catch (js "weather") (js "get_weather") (message e)).2
       = 404).
Proof.
  split.
  - apply (proj1 (upstream_not_found_is_404 (always (json_response "" tool_error))
                    (fresh sample_config None) (json_response "" tool_error)
                    (js "Tool not found: get_weather")
                    (js "weather") (js "get_weather") eq_refl
                    (or_introl
                       (conj eq_refl
                          (conj eq_refl
                             (ex_intro _ _ (ex_intro _ _
                                (conj eq_refl (conj eq_refl eq_refl))))))))
                 None).
    reflexivity.
  - apply (proj2 (upstream_not_found_is_404 (always tool_error_stream)
                    (fresh sample_config None) tool_error_stream
                    (js "Tool not found: get_weather")
                    (js "weather") (js "get_weather") eq_refl
                    (or_intror
                       (conj eq_refl
                          (ex_intro _ []
                             (ex_intro _ _ (ex_intro _ [[]] (ex_intro _ _ (ex_intro _ _
                                (conj eq_refl (conj eq_refl (conj eq_refl
                                   (conj eq_refl eq_refl))))))))))))
                 (JObj [])).
    reflexivity.
Defined.

(** [?sessionId=Q1] with the header [Mcp-Session-Id: H1]: the upstream
    request carries Q1. *)
Lemma caller_session_id_reaches_upstream_witness :
  getSessionId (Some (js "Q1")) (Some (js "H1")) = Some (js "Q1") /\
  sessionId (constructor sample_config (Some (js "Q1"))) = Some (js "Q1") /\
  (exists config,
     own_property sample_servers (js "weather") = Some config /\
     member config (js "url")
       = Some (JStr (url (constructor sample_config (Some (js "Q1")))))) /\
  exists r,
    wire (sendRequest (always (json_response "" bare_result)) (js "tools/list") (JObj [])
            {| this := constructor sample_config (Some (js "Q1"));
               wire := []; console := [] |}).2 = [r] /\
    req_url r = url (constructor sample_config (Some (js "Q1"))) /\
    req_headers r !! js "Mcp-Session-Id" = Some (js "Q1").
Proof.
  apply (caller_session_id_reaches_upstream
           (always (json_response "" bare_result)) sample_servers (js "weather")
           (Some (js "Q1")) (Some (js "H1")) (js "Q1")
           (constructor sample_config (Some (js "Q1")))).
  - by left.
  - evaluate.
Defined.

Lemma accepted_server_is_listed_witness :
  own_property sample_servers (js "weather") = Some weather_config /\
  member weather_config (js "type") = Some (JStr (js "http")) /\
  (exists u, member weather_config (js "url") = Some u /\ truthy u = true) /\
  forall entries,
    listServers sample_servers = Returns entries ->
    {| entry_name := js "weather"; entry_url := member weather_config (js "url");
       entry_type := Some (JStr (js "http")) |} ∈ entries.
Proof.
  apply (accepted_server_is_listed sample_servers (js "weather") weather_config).
  evaluate.
Defined.

(** The two servers of the sample configuration, as the route
    [GET /api/list-servers] reports them. *)
Example list_servers_route_sample :
  list_servers_route sample_servers =
  inl ([{| entry_name := js "weather";
           entry_url := Some (JStr (js "https://mcp.example/rpc"));
           entry_type := Some (JStr (js "http")) |};
        {| entry_name := js "local"; entry_url := None;
           entry_type := Some (JStr (js "stdio")) |}], 2%nat).
Proof. evaluate. Qed.

(** Array indices come first among the keys, in ascending order, whatever
    the order of the file. *)
Example Object_keys_sample :
  Object_keys [(js "b", JNull); (js "10", JNull); (js "a", JNull);
               (js "2", JNull); (js "b", JNull); (js "01", JNull)]
  = [js "2"; js "10"; js "b"; js "a"; js "01"].
Proof. evaluate. Qed.

(** [GET /api/mcp/weather/tools?init=true&sessionId=Q1] against a server
    that opens the session S1: three messages go out, the last under S1,
    and S1 is what the reply carries.  Without [init] the caller's Q1 is
    used and returned. *)
Example init_flag_sample :
  (tools_try (always session_response) (Some (js "true")) (Some (js "Q1")) None
     (fresh sample_config (Some (js "Q1")))).1
    = Resolved (Some (js "S1"),
                Some (JObj [(js "protocolVersion", JStr (js "2025-06-18"))])) /\
  (fun r => req_headers r !! js "Mcp-Session-Id") <$>
    wire (tools_try (always session_response) (Some (js "true")) (Some (js "Q1")) None
            (fresh sample_config (Some (js "Q1")))).2
    = [None; None; Some (js "S1")] /\
  (tools_try (always session_response) None (Some (js "Q1")) None
     (fresh sample_config (Some (js "Q1")))).1
    = Resolved (Some (js "Q1"),
                Some (JObj [(js "protocolVersion", JStr (js "2025-06-18"))])) /\
  (fun r => req_headers r !! js "Mcp-Session-Id") <$>
    wire (tools_try (always session_response) None (Some (js "Q1")) None
            (fresh sample_config (Some (js "Q1")))).2
    = [Some (js "Q1")].
Proof.
  unfold tools_try, newSessionId, listTools, bind, ret.
  cbn [shouldInitialize fmap option_fmap option_map strict_equals_string].
  replace (jsstring_eqb (js "true") (js "true")) with true by evaluate.
  destruct (initialize_run_wire (always session_response)
              (fresh sample_config (Some (js "Q1")))) as (logs & ->).
  unfold always at 1 2 3. cbn [truthy_string].
  replace (response_outcome session_response)
    with (Resolved (A:=option value)
            (Some (JObj [(js "protocolVersion", JStr (js "2025-06-18"))])))
    by evaluate.
  repeat match goal with
  | |- context [sendRequest ?n ?m ?p ?w] =>
      let logs := fresh "logs" in
      destruct (sendRequest_run n m p w) as (logs & ->)
  end.
  repeat split; evaluate.
Qed.
